(** * The slide-out panel of assets/js/main.js ([$.fn.panel])

    A shallow embedding of the panel plugin: its configuration, the part of
    the DOM it reads and writes, its event handlers and its deferred
    callbacks, followed by the properties the specification states about
    them. *)

From Stdlib Require Import ZArith Bool.
From stdpp Require Import base decidable numbers strings list gmap.

Local Open Scope Z_scope.

(** ** JavaScript values and numbers *)

Module JS.

(** A number as the handlers see it: a finite pixel quantity or NaN. *)
Inductive num : Set :=
| NaN
| Fin (z : Z).

(** What a property such as [$element.touchPosX] can hold. *)
Inductive value : Set :=
| Undefined
| Null
| Num (z : Z).

(** ToNumber: [undefined] becomes NaN, [null] becomes 0. *)
Definition to_number (v : value) : num :=
  match v with
  | Undefined => NaN
  | Null => Fin 0
  | Num z => Fin z
  end.

Definition sub (a b : num) : num :=
  match a, b with
  | Fin x, Fin y => Fin (x - y)
  | _, _ => NaN
  end.

Definition add (a b : num) : num :=
  match a, b with
  | Fin x, Fin y => Fin (x + y)
  | _, _ => NaN
  end.

Definition mul (a b : num) : num :=
  match a, b with
  | Fin x, Fin y => Fin (x * y)
  | _, _ => NaN
  end.

(** [a < b]: false as soon as one side is NaN. *)
Definition lt (a b : num) : bool :=
  match a, b with
  | Fin x, Fin y => x <? y
  | _, _ => false
  end.

(** [a > b] *)
Definition gt (a b : num) : bool := lt b a.

(** [v === null] *)
Definition is_null (v : value) : bool :=
  match v with
  | Null => true
  | _ => false
  end.

(** [v === s] for an attribute value [v] (a string or [undefined]). *)
Definition str_eq (v : option string) (s : string) : bool :=
  match v with
  | Some x => bool_decide (x = s)
  | None => false
  end.

(** Truthiness of an attribute value: [undefined] and [''] are falsy. *)
Definition truthy (v : option string) : bool :=
  match v with
  | Some x => negb (bool_decide (x = ""%string))
  | None => false
  end.

(** ['#' + v]: string concatenation, [undefined] prints as its name. *)
Definition hash_concat (v : option string) : string :=
  match v with
  | Some x => ("#" ++ x)%string
  | None => "#undefined"%string
  end.

End JS.

(** ** UtilHelpers *)

(** [typeof value === 'string' && value.length > 0] *)
Definition isStringNotEmpty (value : option string) : bool :=
  match value with
  | Some s => bool_decide (0 < String.length s)%nat
  | None => false
  end.

(** ** Configuration *)

Record PanelConfig : Type := {
  delay : Z;
  hideOnClick : bool;
  hideOnEscape : bool;
  hideOnSwipe : bool;
  resetScroll : bool;
  resetForms : bool;
  side : option string;
  visibleClass : string
}.

(** The [defaults] object of [$.fn.panel] ([target] is the element whose
    classes the state below carries). *)
Definition defaults : PanelConfig := {|
  delay := 0;
  hideOnClick := false;
  hideOnEscape := false;
  hideOnSwipe := false;
  resetScroll := false;
  resetForms := false;
  side := None;
  visibleClass := "visible"
|}.

(** The configuration main.js gives to [#navPanel]. *)
Definition navPanelConfig : PanelConfig := {|
  delay := 500;
  hideOnClick := true;
  hideOnEscape := false;
  hideOnSwipe := true;
  resetScroll := true;
  resetForms := true;
  side := Some "right"%string;
  visibleClass := "is-navPanel-visible"
|}.

(** ** Swipe evaluation *)

Definition evaluateSwipe (side : option string) (diffX diffY : JS.num) : bool :=
  let boundary := JS.Fin 20 in
  let delta := JS.Fin 50 in
  if JS.str_eq side "left" then
    (JS.lt diffY boundary && JS.gt diffY (JS.mul (JS.Fin (-1)) boundary))
    && JS.gt diffX delta
  else if JS.str_eq side "right" then
    (JS.lt diffY boundary && JS.gt diffY (JS.mul (JS.Fin (-1)) boundary))
    && JS.lt diffX (JS.mul (JS.Fin (-1)) delta)
  else if JS.str_eq side "top" then
    (JS.lt diffX boundary && JS.gt diffX (JS.mul (JS.Fin (-1)) boundary))
    && JS.gt diffY delta
  else if JS.str_eq side "bottom" then
    (JS.lt diffX boundary && JS.gt diffX (JS.mul (JS.Fin (-1)) boundary))
    && JS.lt diffY (JS.mul (JS.Fin (-1)) delta)
  else false.

(** ** Link validation *)

Definition isValidHrefForPanelClick (href panelId : option string) : bool :=
  if negb (isStringNotEmpty href) then false
  else if JS.str_eq href "#" then false
  else if JS.truthy panelId && JS.str_eq href (JS.hash_concat panelId) then false
  else true.

(** ** The DOM state a panel reads and writes *)

(** A form nested in the panel: its current value, the value [reset()]
    restores, and whether its [reset()] throws. *)
Record Form : Type := {
  form_value : string;
  form_default : string;
  reset_throws : bool
}.

(** The callbacks handed to [window.setTimeout]. *)
Inductive Task : Type :=
| Cleanup
| Navigate (targetVal hrefVal : option string).

Record Timer : Type := {
  timer_due : Z;
  timer_task : Task
}.

(** What a navigation callback does to the window. *)
Inductive Effect : Type :=
| WindowOpen (url : option string)
| LocationAssign (url : option string).

Record Panel : Type := {
  target_classes : gset string;   (* classes of config.target *)
  touchPosX : JS.value;           (* $element.touchPosX *)
  touchPosY : JS.value;           (* $element.touchPosY *)
  scrollTop : Z;                  (* $element.scrollTop() *)
  scrollHeight : Z;               (* $element.get(0).scrollHeight *)
  outerHeight : Z;                (* $element.outerHeight() *)
  forms : list Form;              (* $element.find('form') *)
  clock : Z;                      (* current time, in ms *)
  timers : list Timer;            (* pending timeouts, earliest first *)
  effects : list Effect           (* navigations performed so far *)
}.

Definition set_classes (c : gset string) (s : Panel) : Panel :=
  {| target_classes := c; touchPosX := touchPosX s; touchPosY := touchPosY s;
     scrollTop := scrollTop s; scrollHeight := scrollHeight s;
     outerHeight := outerHeight s; forms := forms s; clock := clock s;
     timers := timers s; effects := effects s |}.

Definition set_touchPos (x y : JS.value) (s : Panel) : Panel :=
  {| target_classes := target_classes s; touchPosX := x; touchPosY := y;
     scrollTop := scrollTop s; scrollHeight := scrollHeight s;
     outerHeight := outerHeight s; forms := forms s; clock := clock s;
     timers := timers s; effects := effects s |}.

Definition set_scrollTop (z : Z) (s : Panel) : Panel :=
  {| target_classes := target_classes s; touchPosX := touchPosX s;
     touchPosY := touchPosY s; scrollTop := z; scrollHeight := scrollHeight s;
     outerHeight := outerHeight s; forms := forms s; clock := clock s;
     timers := timers s; effects := effects s |}.

Definition set_forms (fs : list Form) (s : Panel) : Panel :=
  {| target_classes := target_classes s; touchPosX := touchPosX s;
     touchPosY := touchPosY s; scrollTop := scrollTop s;
     scrollHeight := scrollHeight s; outerHeight := outerHeight s;
     forms := fs; clock := clock s; timers := timers s; effects := effects s |}.

Definition set_clock (t : Z) (s : Panel) : Panel :=
  {| target_classes := target_classes s; touchPosX := touchPosX s;
     touchPosY := touchPosY s; scrollTop := scrollTop s;
     scrollHeight := scrollHeight s; outerHeight := outerHeight s;
     forms := forms s; clock := t; timers := timers s; effects := effects s |}.

Definition set_timers (ts : list Timer) (s : Panel) : Panel :=
  {| target_classes := target_classes s; touchPosX := touchPosX s;
     touchPosY := touchPosY s; scrollTop := scrollTop s;
     scrollHeight := scrollHeight s; outerHeight := outerHeight s;
     forms := forms s; clock := clock s; timers := ts; effects := effects s |}.

Definition add_effect (e : Effect) (s : Panel) : Panel :=
  {| target_classes := target_classes s; touchPosX := touchPosX s;
     touchPosY := touchPosY s; scrollTop := scrollTop s;
     scrollHeight := scrollHeight s; outerHeight := outerHeight s;
     forms := forms s; clock := clock s; timers := timers s;
     effects := effects s ++ [e] |}.

(** *** Classes (each class name is one token) *)

Definition hasClass (c : string) (cs : gset string) : bool := bool_decide (c ∈ cs).
Definition removeClass (c : string) (cs : gset string) : gset string := cs ∖ {[c]}.
Definition addClass (c : string) (cs : gset string) : gset string := cs ∪ {[c]}.
Definition toggleClass (c : string) (cs : gset string) : gset string :=
  if hasClass c cs then removeClass c cs else addClass c cs.

(** The panel is open exactly when the target carries [visibleClass]. *)
Definition visible (cfg : PanelConfig) (s : Panel) : bool :=
  hasClass (visibleClass cfg) (target_classes s).

(** *** Timeouts *)

(** A new timer goes behind every pending timer that is due no later. *)
Fixpoint insert_timer (t : Timer) (l : list Timer) : list Timer :=
  match l with
  | [] => [t]
  | u :: r =>
      if timer_due u <=? timer_due t then u :: insert_timer t r else t :: l
  end.

(** [window.setTimeout(task, ms)]: a negative timeout counts as 0. *)
Definition setTimeout (task : Task) (ms : Z) (s : Panel) : Panel :=
  set_timers
    (insert_timer {| timer_due := clock s + Z.max 0 ms; timer_task := task |}
       (timers s)) s.

(** *** Events *)

Record Event : Type := {
  defaultPrevented : bool;
  propagationStopped : bool
}.

Definition fresh_event : Event :=
  {| defaultPrevented := false; propagationStopped := false |}.

Definition preventDefault (ev : Event) : Event :=
  {| defaultPrevented := true; propagationStopped := propagationStopped ev |}.

Definition stopPropagation (ev : Event) : Event :=
  {| defaultPrevented := defaultPrevented ev; propagationStopped := true |}.

(** What a handler returns to jQuery. *)
Inductive HandlerReturn : Set :=
| RetUndefined
| RetFalse.

(** jQuery turns a [false] result into preventDefault + stopPropagation. *)
Definition after_return (r : HandlerReturn) (ev : Event) : Event :=
  match r with
  | RetUndefined => ev
  | RetFalse => stopPropagation (preventDefault ev)
  end.

Record Touch : Set := {
  pageX : Z;
  pageY : Z
}.

Record Anchor : Type := {
  href : option string;     (* attr('href') *)
  target : option string    (* attr('target') *)
}.

(** ** Deferred callbacks *)

(** Outcome of a DOM call that may throw. *)
Inductive result (A : Type) : Type :=
| Ok (a : A)
| Throw.
Arguments Ok {A} a.
Arguments Throw {A}.

(** [form.reset()] *)
Definition reset (f : Form) : result Form :=
  if reset_throws f then Throw
  else Ok {| form_value := form_default f; form_default := form_default f;
             reset_throws := reset_throws f |}.

(** [try { this.reset(); } catch (err) { console.warn(...) }] *)
Definition try_reset (f : Form) : Form :=
  match reset f with
  | Ok f' => f'
  | Throw => f
  end.

(** The post-hide callback of [_hide]. *)
Definition cleanup (cfg : PanelConfig) (s : Panel) : Panel :=
  let s1 := if resetScroll cfg then set_scrollTop 0 s else s in
  if resetForms cfg then set_forms (try_reset <$> forms s1) s1 else s1.

(** The redirect callback of the link-click handler. *)
Definition navigate (targetVal hrefVal : option string) (s : Panel) : Panel :=
  if JS.str_eq targetVal "_blank" then add_effect (WindowOpen hrefVal) s
  else add_effect (LocationAssign hrefVal) s.

Definition run_task (cfg : PanelConfig) (task : Task) (s : Panel) : Panel :=
  match task with
  | Cleanup => cleanup cfg s
  | Navigate targetVal hrefVal => navigate targetVal hrefVal s
  end.

(** The navigation a callback performs when it runs, if any. *)
Definition task_effects (task : Task) : list Effect :=
  match task with
  | Cleanup => []
  | Navigate targetVal hrefVal =>
      [ if JS.str_eq targetVal "_blank" then WindowOpen hrefVal
        else LocationAssign hrefVal ]
  end.

Definition is_cleanup (task : Task) : bool :=
  match task with
  | Cleanup => true
  | Navigate _ _ => false
  end.

Definition due_by (t : Z) (tm : Timer) : bool := timer_due tm <=? t.

(** Let time pass until [t]: every timer due by then fires, earliest first. *)
Definition advance_to (cfg : PanelConfig) (t : Z) (s : Panel) : Panel :=
  let fired := List.filter (due_by t) (timers s) in
  let pending := List.filter (fun tm => negb (due_by t tm)) (timers s) in
  foldl (fun acc tm => run_task cfg (timer_task tm) acc)
        (set_clock (Z.max (clock s) t) (set_timers pending s)) fired.

(** ** Handlers *)

(** [$element._hide(event)] *)
Definition _hide (cfg : PanelConfig) (event : option Event) (s : Panel)
  : Panel * option Event :=
  if negb (hasClass (visibleClass cfg) (target_classes s)) then (s, event)
  else
    let event' := (fun ev => stopPropagation (preventDefault ev)) <$> event in
    let s1 := set_classes (removeClass (visibleClass cfg) (target_classes s)) s in
    (setTimeout Cleanup (delay cfg) s1, event').

(** The delegated ['a'] click handler bound when [hideOnClick] is set. *)
Definition onLinkClick (cfg : PanelConfig) (id : option string) (a : Anchor)
    (event : Event) (s : Panel) : Panel * Event :=
  let hrefVal := href a in
  let targetVal := target a in
  if negb (isValidHrefForPanelClick hrefVal id) then (s, event)
  else
    let event1 := stopPropagation (preventDefault event) in
    let s1 := fst (_hide cfg None s) in
    (setTimeout (Navigate targetVal hrefVal) (delay cfg + 10) s1, event1).

(** The touchstart handler; [touch] is [touches[0]], if any. *)
Definition onTouchStart (touch : option Touch) (s : Panel) : Panel :=
  match touch with
  | None => s
  | Some t => set_touchPos (JS.Num (pageX t)) (JS.Num (pageY t)) s
  end.

(** The overscroll condition of the touchmove handler. *)
Definition overscroll (s : Panel) (diffY : JS.num) : bool :=
  let elementHeight := JS.Fin (outerHeight s) in
  let scrollDistance := JS.Fin (scrollHeight s - scrollTop s) in
  (JS.lt (JS.Fin (scrollTop s)) (JS.Fin 0) && JS.lt diffY (JS.Fin 0))
  || (JS.gt scrollDistance (JS.sub elementHeight (JS.Fin 2))
      && JS.lt scrollDistance (JS.add elementHeight (JS.Fin 2))
      && JS.gt diffY (JS.Fin 0)).

(** The touchmove handler. Without a first touch, reading [touch.pageX]
    throws and the outer catch leaves everything as it was. *)
Definition onTouchMove (cfg : PanelConfig) (touch : option Touch)
    (event : Event) (s : Panel) : Panel * Event * HandlerReturn :=
  if JS.is_null (touchPosX s) || JS.is_null (touchPosY s)
  then (s, event, RetUndefined)
  else
    match touch with
    | None => (s, event, RetUndefined)
    | Some t =>
        let diffX := JS.sub (JS.to_number (touchPosX s)) (JS.Fin (pageX t)) in
        let diffY := JS.sub (JS.to_number (touchPosY s)) (JS.Fin (pageY t)) in
        if hideOnSwipe cfg && evaluateSwipe (side cfg) diffX diffY then
          let s1 := set_touchPos JS.Null JS.Null s in
          (fst (_hide cfg None s1), event, RetFalse)
        else if overscroll s diffY then
          (s, stopPropagation (preventDefault event), RetUndefined)
        else (s, event, RetUndefined)
    end.

(** The handler bound to ['click touchend touchstart touchmove']. *)
Definition onInsideEvent (event : Event) : Event := stopPropagation event.

(** The code builds the selector ['a[href="#' + id + '"]'] by concatenation.
    Inside the double quotes of a selector a double quote ends the string
    and a backslash starts an escape; an id holding neither, and no control
    character, stands for itself there. *)
Fixpoint selector_safe (s : string) : bool :=
  match s with
  | EmptyString => true
  | String c r =>
      let n := Ascii.nat_of_ascii c in
      bool_decide (32 ≤ n)%nat && negb (bool_decide (n = 34%nat))
      && negb (bool_decide (n = 92%nat)) && negb (bool_decide (n = 127%nat))
      && selector_safe r
  end.

(** The panel has no id, or one that stands for itself in the selector. *)
Definition plain_id (id : option string) : bool :=
  match id with
  | Some i => selector_safe i
  | None => true
  end.

(** Does the anchor match the selector [a[href="#<id>"]]? For a
    [plain_id] the selector asks for that href, character by character;
    for any other id jQuery reads the selector differently or refuses it,
    and this test does not describe what the code does. *)
Definition matches_self (id : option string) (a : Anchor) : bool :=
  JS.str_eq (href a) (JS.hash_concat id).

(** The delegated handler of the panel for anchors pointing to its id. *)
Definition onSelfAnchorClick (cfg : PanelConfig) (event : Event) (s : Panel)
  : Panel * Event :=
  (set_classes (removeClass (visibleClass cfg) (target_classes s)) s,
   stopPropagation (preventDefault event)).

(** The body handler of ['click touchend']. *)
Definition onBodyClick (cfg : PanelConfig) (event : Event) (s : Panel)
  : Panel * Event :=
  let '(s', ev') := _hide cfg (Some event) s in (s', default event ev').

(** The delegated body handler for anchors pointing to the panel's id. *)
Definition onToggleClick (cfg : PanelConfig) (event : Event) (s : Panel)
  : Panel * Event :=
  (set_classes (toggleClass (visibleClass cfg) (target_classes s)) s,
   stopPropagation (preventDefault event)).

(** The window keydown handler bound when [hideOnEscape] is set. *)
Definition onKeyDown (cfg : PanelConfig) (keyCode : Z) (event : Event)
    (s : Panel) : Panel * Event :=
  if keyCode =? 27 then
    let '(s', ev') := _hide cfg (Some event) s in (s', default event ev')
  else (s, event).

(** ** Dispatch (the order in which jQuery runs the bound handlers) *)

(** Where a click lands: inside the panel or elsewhere under the body, and
    the anchor it hits, if any. *)
Record ClickTarget : Type := {
  inside : bool;
  anchor : option Anchor
}.

(** A click seen by the panel element: delegated handlers in binding order,
    then the bound one unless propagation has been stopped. *)
Definition panel_click (cfg : PanelConfig) (id : option string)
    (a : option Anchor) (event : Event) (s : Panel) : Panel * Event :=
  let '(s1, ev1) :=
    match a with
    | Some x => if hideOnClick cfg then onLinkClick cfg id x event s else (s, event)
    | None => (s, event)
    end in
  let '(s2, ev2) :=
    match a with
    | Some x =>
        if isStringNotEmpty id && matches_self id x
        then onSelfAnchorClick cfg ev1 s1 else (s1, ev1)
    | None => (s1, ev1)
    end in
  (s2, if propagationStopped ev2 then ev2 else onInsideEvent ev2).

(** A click seen by the body: the delegated toggle handler first, then the
    bound hide handler unless propagation has been stopped. *)
Definition body_click (cfg : PanelConfig) (id : option string)
    (a : option Anchor) (event : Event) (s : Panel) : Panel * Event :=
  let '(s1, ev1) :=
    match a with
    | Some x =>
        if isStringNotEmpty id && matches_self id x
        then onToggleClick cfg event s else (s, event)
    | None => (s, event)
    end in
  if propagationStopped ev1 then (s1, ev1) else onBodyClick cfg ev1 s1.

Definition click (cfg : PanelConfig) (id : option string) (tgt : ClickTarget)
    (s : Panel) : Panel * Event :=
  if inside tgt then
    let '(s1, ev1) := panel_click cfg id (anchor tgt) fresh_event s in
    if propagationStopped ev1 then (s1, ev1)
    else body_click cfg id (anchor tgt) ev1 s1
  else body_click cfg id (anchor tgt) fresh_event s.

(** A touchmove seen by the panel element: the touchmove handler, jQuery's
    treatment of its result, then the handler that stops propagation. *)
Definition touchmove (cfg : PanelConfig) (touch : option Touch) (s : Panel)
  : Panel * Event :=
  let '(s', ev, r) := onTouchMove cfg touch fresh_event s in
  (s', onInsideEvent (after_return r ev)).

Inductive DomEvent : Type :=
| TouchStart (touch : option Touch)   (* on the panel *)
| TouchMove (touch : option Touch)    (* on the panel *)
| TouchEnd                            (* on the panel *)
| Click (tgt : ClickTarget)
| BodyTouchEnd                        (* outside the panel *)
| KeyDown (keyCode : Z)
| Elapse (t : Z).

Definition step (cfg : PanelConfig) (id : option string) (e : DomEvent)
    (s : Panel) : Panel :=
  match e with
  | TouchStart touch => onTouchStart touch s
  | TouchMove touch => fst (touchmove cfg touch s)
  | TouchEnd => s
  | Click tgt => fst (click cfg id tgt s)
  | BodyTouchEnd => fst (onBodyClick cfg fresh_event s)
  | KeyDown keyCode =>
      if hideOnEscape cfg then fst (onKeyDown cfg keyCode fresh_event s) else s
  | Elapse t => advance_to cfg t s
  end.

Definition run (cfg : PanelConfig) (id : option string) (es : list DomEvent)
    (s : Panel) : Panel :=
  foldl (fun acc e => step cfg id e acc) s es.

(** ** Concrete panels for the scenarios *)

(** A panel on which no touch has been recorded yet. *)
Definition new_panel (classes : gset string) (fs : list Form) : Panel := {|
  target_classes := classes;
  touchPosX := JS.Undefined;
  touchPosY := JS.Undefined;
  scrollTop := 0;
  scrollHeight := 1000;
  outerHeight := 600;
  forms := fs;
  clock := 0;
  timers := [];
  effects := []
|}.

Definition open_navPanel : Panel :=
  new_panel {[ visibleClass navPanelConfig ]} [].

Definition closed_navPanel : Panel := new_panel ∅ [].

(** ** Touch sequences *)

(** Is the event a touchmove that [evaluateSwipe] accepts for a gesture
    started at [t]? *)
Definition swipe_move (cfg : PanelConfig) (t : Touch) (e : DomEvent) : bool :=
  match e with
  | TouchMove (Some p) =>
      hideOnSwipe cfg
      && evaluateSwipe (side cfg) (JS.Fin (pageX t - pageX p))
                       (JS.Fin (pageY t - pageY p))
  | _ => false
  end.

Definition not_touchstart (e : DomEvent) : bool :=
  match e with
  | TouchStart _ => false
  | _ => true
  end.

Definition touchPos (s : Panel) : JS.value * JS.value := (touchPosX s, touchPosY s).

(** The scenario of the specification: two forms, the first one throws. *)
Definition two_forms : list Form :=
  [ {| form_value := "typed"; form_default := "a"; reset_throws := true |};
    {| form_value := "typed"; form_default := "b"; reset_throws := false |} ].

(** Is the event a click on an anchor outside the panel that the body's
    delegated toggle handler serves? *)
Definition is_toggle_click (id : option string) (e : DomEvent) : bool :=
  match e with
  | Click tgt =>
      negb (inside tgt)
      && match anchor tgt with
         | Some a => isStringNotEmpty id && matches_self id a
         | None => false
         end
  | _ => false
  end.

(** ** UtilHelpers.normalizeConfig *)

(** An object is the finite map of its own enumerable properties.
    [for (key in src) if (own) cfg[key] = src[key]]: the assignment creates
    or overwrites an own property, except for the key '__proto__', which
    goes to the setter of Object.prototype and creates none (what that
    setter does to the prototype chain is outside this map). *)
Definition copy_own {V : Type} (src cfg : gmap string V) : gmap string V :=
  map_fold (fun key v acc =>
              if bool_decide (key = "__proto__"%string) then acc
              else <[key:=v]> acc) cfg src.

(** The object has no own property named '__proto__'. *)
Definition no_proto {V : Type} (o : gmap string V) : Prop :=
  o !! "__proto__"%string = None.

(** [userConfig] is [None] when it is falsy or not an object. *)
Definition normalizeConfig {V : Type} (defaults : gmap string V)
    (userConfig : option (gmap string V)) : gmap string V :=
  let cfg := copy_own defaults ∅ in
  match userConfig with
  | Some u => copy_own u cfg
  | None => cfg
  end.

(** ** $.prioritize *)

(** The children of one parent, in document order, and the data stored
    under the key '__prioritize': for a moved element, the sibling that
    preceded it. An element that is not among the children has no parent. *)
Record Siblings : Type := {
  children : list nat;
  moved : gmap nat nat
}.

(** [$elem.prev()] *)
Fixpoint prev_sibling (e : nat) (l : list nat) : option nat :=
  match l with
  | [] => None
  | p :: r =>
      if decide (p = e) then None
      else match r with
           | x :: _ => if decide (x = e) then Some p else prev_sibling e r
           | [] => None
           end
  end.

(** The children without [e]. *)
Definition detach (e : nat) (l : list nat) : list nat :=
  List.filter (fun x => negb (bool_decide (x = e))) l.

(** [e] put right behind [p]; nowhere when [p] is not there ([insertAfter]
    takes the element out of its parent before it looks for the target's). *)
Fixpoint insert_after (p e : nat) (l : list nat) : list nat :=
  match l with
  | [] => []
  | x :: r => if decide (x = p) then x :: e :: r else x :: insert_after p e r
  end.

(** The body of the [each] callback of [$.prioritize]. *)
Definition prioritize_one (condition : bool) (e : nat) (s : Siblings) : Siblings :=
  if decide (e ∈ children s) then
    match moved s !! e with
    | None =>
        if negb condition then s
        else match prev_sibling e (children s) with
             | None => s
             | Some placeholder =>
                 {| children := e :: detach e (children s);
                    moved := <[e:=placeholder]> (moved s) |}
             end
    | Some savedPlaceholder =>
        if condition then s
        else {| children :=
                  insert_after savedPlaceholder e (detach e (children s));
                moved := delete e (moved s) |}
    end
  else s.

Definition prioritize (elements : list nat) (condition : bool) (s : Siblings)
  : Siblings :=
  foldl (fun acc e => prioritize_one condition e acc) s elements.

(** The children that are not in the collection. *)
Definition others (elements l : list nat) : list nat :=
  List.filter (fun x => negb (bool_decide (x ∈ elements))) l.

(** Every saved placeholder is still a child, and children are distinct. *)
Definition well_placed (s : Siblings) : Prop :=
  NoDup (children s)
  ∧ ∀ e p, moved s !! e = Some p → p ∈ children s ∧ p ≠ e.

(** ** $.fn.placeholder: text inputs and textareas *)

(** The elements the selector ['input[type=text],textarea'] finds. *)
Inductive InputKind : Set :=
| TextInput
| TextArea.

Record Input : Type := {
  input_kind : InputKind;
  input_name : option string;          (* attr('name') *)
  input_value : string;                (* val() *)
  input_placeholder : option string;   (* attr('placeholder') *)
  input_classes : gset string
}.

Definition LF : Ascii.ascii := Ascii.ascii_of_nat 10.
Definition CR : Ascii.ascii := Ascii.ascii_of_nat 13.

(** A text input drops the line breaks of a value written to it. *)
Fixpoint strip_newlines (s : string) : string :=
  match s with
  | EmptyString => EmptyString
  | String c r =>
      if Ascii.eqb c LF || Ascii.eqb c CR then strip_newlines r
      else String c (strip_newlines r)
  end.

(** A textarea gives CR LF and a lone CR back as LF. *)
Fixpoint normalize_newlines (s : string) : string :=
  match s with
  | EmptyString => EmptyString
  | String c r =>
      if Ascii.eqb c CR then
        String LF
          match r with
          | EmptyString => EmptyString
          | String c' r' =>
              if Ascii.eqb c' LF then normalize_newlines r'
              else normalize_newlines r
          end
      else String c (normalize_newlines r)
  end.

(** What [val()] returns after [v] was written to the element. *)
Definition read_back (k : InputKind) (v : string) : string :=
  match k with
  | TextInput => strip_newlines v
  | TextArea => normalize_newlines v
  end.


Definition ends_with (suffix s : string) : bool :=
  let n := String.length s in
  let k := String.length suffix in
  bool_decide (k ≤ n)%nat && bool_decide (String.substring (n - k) k s = suffix).

(** [$i.attr('name') && $i.attr('name').match(/-polyfill-field$/)] *)
Definition is_polyfill_field (name : option string) : bool :=
  JS.truthy name && ends_with "-polyfill-field" (default ""%string name).

(** [.val(v)]: [undefined] is written as the empty string, and the element
    keeps the value as its kind reads it back. *)
Definition set_val (v : option string) (i : Input) : Input :=
  {| input_kind := input_kind i; input_name := input_name i;
     input_value := read_back (input_kind i) (default ""%string v);
     input_placeholder := input_placeholder i;
     input_classes := input_classes i |}.

Definition set_input_classes (cs : gset string) (i : Input) : Input :=
  {| input_kind := input_kind i; input_name := input_name i;
     input_value := input_value i;
     input_placeholder := input_placeholder i; input_classes := cs |}.

Definition set_input_name (n : option string) (i : Input) : Input :=
  {| input_kind := input_kind i; input_name := n;
     input_value := input_value i;
     input_placeholder := input_placeholder i;
     input_classes := input_classes i |}.

(** The first pass over the text inputs and textareas. *)
Definition placeholder_init (i : Input) : Input :=
  let placeholderText :=
    if JS.truthy (input_placeholder i) then default ""%string (input_placeholder i)
    else ""%string in
  if bool_decide (input_value i = ""%string)
     || bool_decide (input_value i = placeholderText)
  then set_val (Some placeholderText)
         (set_input_classes (addClass "polyfill-placeholder" (input_classes i)) i)
  else i.

(** The blur handler of a text input or textarea. *)
Definition onBlur_text (i : Input) : Input :=
  if is_polyfill_field (input_name i) then i
  else if bool_decide (input_value i = ""%string) then
    set_val (input_placeholder i)
      (set_input_classes (addClass "polyfill-placeholder" (input_classes i)) i)
  else i.

(** The focus handler of a text input or textarea. *)
Definition onFocus_text (i : Input) : Input :=
  if is_polyfill_field (input_name i) then i
  else if JS.str_eq (input_placeholder i) (input_value i) then
    set_val (Some ""%string)
      (set_input_classes (removeClass "polyfill-placeholder" (input_classes i)) i)
  else i.

(** What the submit handler does to one field. *)
Definition onSubmit_field (i : Input) : Input :=
  let i1 := if is_polyfill_field (input_name i)
            then set_input_name (Some ""%string) i else i in
  if JS.str_eq (input_placeholder i1) (input_value i1) then
    set_val (Some ""%string)
      (set_input_classes (removeClass "polyfill-placeholder" (input_classes i1)) i1)
  else i1.

Definition onSubmit (form : list Input) : list Input := onSubmit_field <$> form.

(** ** Basic facts about classes, setters and timers *)

Lemma hasClass_removeClass (c : string) (cs : gset string) :
  hasClass c (removeClass c cs) = false.
Proof.
  unfold hasClass, removeClass. apply bool_decide_eq_false.
  rewrite elem_of_difference, elem_of_singleton. by intros [_ H].
Qed.

Lemma hasClass_addClass (c : string) (cs : gset string) :
  hasClass c (addClass c cs) = true.
Proof.
  unfold hasClass, addClass. apply bool_decide_eq_true.
  rewrite elem_of_union, elem_of_singleton. by right.
Qed.

Lemma hasClass_toggleClass (c : string) (cs : gset string) :
  hasClass c (toggleClass c cs) = negb (hasClass c cs).
Proof.
  unfold toggleClass. destruct (hasClass c cs) eqn:E; simpl.
  - apply hasClass_removeClass.
  - apply hasClass_addClass.
Qed.

Lemma toggleClass_involutive (c : string) (cs : gset string) :
  toggleClass c (toggleClass c cs) = cs.
Proof.
  unfold toggleClass at 2. destruct (hasClass c cs) eqn:E.
  - unfold toggleClass. rewrite hasClass_removeClass.
    apply bool_decide_eq_true in E. unfold addClass, removeClass.
    apply set_eq. intros x.
    rewrite elem_of_union, elem_of_difference, elem_of_singleton.
    destruct (decide (x = c)) as [->|Hne]; tauto.
  - unfold toggleClass. rewrite hasClass_addClass.
    apply bool_decide_eq_false in E. unfold addClass, removeClass.
    apply set_eq. intros x.
    rewrite elem_of_difference, elem_of_union, elem_of_singleton.
    destruct (decide (x = c)) as [->|Hne]; tauto.
Qed.

Lemma set_classes_twice (c1 c2 : gset string) (s : Panel) :
  set_classes c2 (set_classes c1 s) = set_classes c2 s.
Proof. reflexivity. Qed.

Lemma hide_not_visible (cfg : PanelConfig) (event : option Event) (s : Panel) :
  visible cfg (fst (_hide cfg event s)) = false.
Proof.
  unfold _hide, visible.
  destruct (hasClass (visibleClass cfg) (target_classes s)) eqn:E; simpl.
  - apply hasClass_removeClass.
  - exact E.
Qed.

Lemma hide_touchPos (cfg : PanelConfig) (event : option Event) (s : Panel) :
  touchPosX (fst (_hide cfg event s)) = touchPosX s
  ∧ touchPosY (fst (_hide cfg event s)) = touchPosY s.
Proof.
  unfold _hide.
  by destruct (hasClass (visibleClass cfg) (target_classes s)).
Qed.

(** No comparison with NaN holds. *)
Lemma lt_NaN_l (b : JS.num) : JS.lt JS.NaN b = false.
Proof. reflexivity. Qed.

Lemma lt_NaN_r (a : JS.num) : JS.lt a JS.NaN = false.
Proof. by destruct a. Qed.

Lemma evaluateSwipe_NaN (sd : option string) :
  evaluateSwipe sd JS.NaN JS.NaN = false.
Proof.
  unfold evaluateSwipe, JS.gt.
  repeat (case (JS.str_eq sd _); [ by rewrite ?lt_NaN_l, ?lt_NaN_r |]).
  reflexivity.
Qed.

Lemma overscroll_NaN (s : Panel) : overscroll s JS.NaN = false.
Proof.
  unfold overscroll, JS.gt. rewrite lt_NaN_l, lt_NaN_r.
  by rewrite !andb_false_r.
Qed.

(** What [evaluateSwipe] asks of finite differences: a movement of more than
    50px towards the configured side, within 20px of drift. *)
Lemma evaluateSwipe_right (dx dy : Z) :
  evaluateSwipe (Some "right"%string) (JS.Fin dx) (JS.Fin dy) = true
  ↔ -20 < dy < 20 ∧ dx < -50.
Proof.
  unfold evaluateSwipe, JS.gt; simpl.
  rewrite !andb_true_iff, !Z.ltb_lt. lia.
Qed.

Lemma evaluateSwipe_left (dx dy : Z) :
  evaluateSwipe (Some "left"%string) (JS.Fin dx) (JS.Fin dy) = true
  ↔ -20 < dy < 20 ∧ 50 < dx.
Proof.
  unfold evaluateSwipe, JS.gt; simpl.
  rewrite !andb_true_iff, !Z.ltb_lt. lia.
Qed.

(** ** The touchmove handler *)

(** Once the coordinates are null, a touchmove changes nothing. *)
Lemma onTouchMove_null (cfg : PanelConfig) (touch : option Touch)
    (event : Event) (s : Panel) :
  touchPosX s = JS.Null ∨ touchPosY s = JS.Null →
  onTouchMove cfg touch event s = (s, event, RetUndefined).
Proof.
  intros [H|H]; unfold onTouchMove; rewrite H; simpl; [done|].
  by rewrite orb_true_r.
Qed.

(** With recorded coordinates, a touchmove either recognizes a swipe, clears
    them and hides the panel, or leaves the panel as it is. *)
Lemma onTouchMove_tracking (cfg : PanelConfig) (t : Touch) (event : Event)
    (s : Panel) (x0 y0 : Z) :
  touchPosX s = JS.Num x0 → touchPosY s = JS.Num y0 →
  onTouchMove cfg (Some t) event s =
    if hideOnSwipe cfg
       && evaluateSwipe (side cfg) (JS.Fin (x0 - pageX t)) (JS.Fin (y0 - pageY t))
    then (fst (_hide cfg None (set_touchPos JS.Null JS.Null s)), event, RetFalse)
    else if overscroll s (JS.Fin (y0 - pageY t))
    then (s, stopPropagation (preventDefault event), RetUndefined)
    else (s, event, RetUndefined).
Proof.
  intros HX HY. unfold onTouchMove. rewrite HX, HY. reflexivity.
Qed.

(** C1, as the specification states it, fails: with side 'right' the
    sequence start (100,200), move to (30,210) gives diffX = 70 and
    diffY = -10, which [evaluateSwipe] rejects; the open panel stays open
    and the recorded coordinates stay (100,200). *)
Lemma C1_leftward_move_is_no_swipe :
  let start := {| pageX := 100; pageY := 200 |} in
  let move := {| pageX := 30; pageY := 210 |} in
  let s := onTouchStart (Some start) open_navPanel in
  let '(s', ev, r) := onTouchMove navPanelConfig (Some move) fresh_event s in
  JS.sub (JS.to_number (touchPosX s)) (JS.Fin (pageX move)) = JS.Fin 70
  ∧ JS.sub (JS.to_number (touchPosY s)) (JS.Fin (pageY move)) = JS.Fin (-10)
  ∧ evaluateSwipe (side navPanelConfig) (JS.Fin 70) (JS.Fin (-10)) = false
  ∧ visible navPanelConfig s' = true
  ∧ touchPosX s' = JS.Num 100 ∧ touchPosY s' = JS.Num 200
  ∧ r = RetUndefined.
Proof. vm_compute. done. Qed.

(** C1 (amended): for a panel with side 'right' and hideOnSwipe, the
    sequence start (100,200), move to (30,210) (diffX = 70, diffY = -10) is
    not recognized as a swipe and leaves the panel and the recorded
    coordinates as they were; the mirrored sequence start (30,200), move to
    (100,210) (diffX = -70, diffY = -10) is recognized: the panel is hidden
    and the recorded coordinates are cleared to null. *)
Theorem C1_right_panel_swipe (cfg : PanelConfig) (s : Panel) :
  side cfg = Some "right"%string → hideOnSwipe cfg = true →
  (let s0 := onTouchStart (Some {| pageX := 100; pageY := 200 |}) s in
   fst (fst (onTouchMove cfg (Some {| pageX := 30; pageY := 210 |}) fresh_event s0)) = s0
   ∧ snd (onTouchMove cfg (Some {| pageX := 30; pageY := 210 |}) fresh_event s0)
     = RetUndefined)
  ∧ (let s0 := onTouchStart (Some {| pageX := 30; pageY := 200 |}) s in
     let '(s', ev, r) :=
       onTouchMove cfg (Some {| pageX := 100; pageY := 210 |}) fresh_event s0 in
     visible cfg s' = false
     ∧ touchPosX s' = JS.Null ∧ touchPosY s' = JS.Null
     ∧ r = RetFalse).
Proof.
  intros Hside Hswipe. split.
  - simpl. rewrite (onTouchMove_tracking cfg _ _ _ 100 200) by reflexivity.
    rewrite Hside, Hswipe. simpl.
    by destruct (overscroll _ _).
  - simpl. rewrite (onTouchMove_tracking cfg _ _ _ 30 200) by reflexivity.
    rewrite Hside, Hswipe. simpl.
    split; [apply hide_not_visible|].
    by destruct (hide_touchPos cfg None
      (set_touchPos JS.Null JS.Null
         (set_touchPos (JS.Num 30) (JS.Num 200) s))) as [-> ->].
Qed.

Lemma C1_right_panel_swipe_witness :
  side navPanelConfig = Some "right"%string
  ∧ hideOnSwipe navPanelConfig = true
  ∧ fst (fst (onTouchMove navPanelConfig (Some {| pageX := 30; pageY := 210 |})
                fresh_event
                (onTouchStart (Some {| pageX := 100; pageY := 200 |}) open_navPanel)))
    = onTouchStart (Some {| pageX := 100; pageY := 200 |}) open_navPanel.
Proof.
  split; [reflexivity|]. split; [reflexivity|].
  exact (proj1 (proj1 (C1_right_panel_swipe navPanelConfig open_navPanel
                         eq_refl eq_refl))).
Defined.

(** C2, as the specification states it, fails: with side 'right' a
    leftward drag of 60px (from x = 100 to x = 40) with a vertical drift of
    5px, in either direction, is not a swipe; the open panel stays open. *)
Lemma C2_leftward_drag_is_no_swipe :
  let cfg := navPanelConfig in
  let s := onTouchStart (Some {| pageX := 100; pageY := 200 |}) open_navPanel in
  evaluateSwipe (side cfg) (JS.sub (JS.Fin 100) (JS.Fin 40))
                (JS.sub (JS.Fin 200) (JS.Fin 205)) = false
  ∧ evaluateSwipe (side cfg) (JS.sub (JS.Fin 100) (JS.Fin 40))
                  (JS.sub (JS.Fin 200) (JS.Fin 195)) = false
  ∧ visible cfg (fst (touchmove cfg (Some {| pageX := 40; pageY := 205 |}) s)) = true
  ∧ visible cfg (fst (touchmove cfg (Some {| pageX := 40; pageY := 195 |}) s)) = true.
Proof. vm_compute. done. Qed.

(** C2 (amended): for side 'right' a swipe is recognized exactly when
    diffX = start - current is below -50 (the touch moved more than 50px to
    the right) and diffY lies strictly between -20 and 20. So diffX = -60
    with a vertical drift of 5px is a swipe, diffX = -60 with a drift of
    30px is not, and diffX = 60 (a leftward drag) never is. *)
Theorem C2_right_swipe_direction :
  (∀ dx dy : Z,
     evaluateSwipe (Some "right"%string) (JS.Fin dx) (JS.Fin dy) = true
     ↔ -20 < dy < 20 ∧ dx < -50)
  ∧ (∀ x : Z, JS.sub (JS.Fin x) (JS.Fin (x + 60)) = JS.Fin (-60))
  ∧ evaluateSwipe (Some "right"%string) (JS.Fin (-60)) (JS.Fin 5) = true
  ∧ evaluateSwipe (Some "right"%string) (JS.Fin (-60)) (JS.Fin (-5)) = true
  ∧ evaluateSwipe (Some "right"%string) (JS.Fin (-60)) (JS.Fin 30) = false
  ∧ evaluateSwipe (Some "right"%string) (JS.Fin (-60)) (JS.Fin (-30)) = false
  ∧ (∀ dy : Z, evaluateSwipe (Some "right"%string) (JS.Fin 60) (JS.Fin dy) = false).
Proof.
  split; [exact evaluateSwipe_right|].
  split; [intros x; simpl; f_equal; lia|].
  repeat (split; [reflexivity|]).
  intros dy. apply not_true_is_false. rewrite evaluateSwipe_right. lia.
Qed.

(** The overscroll condition on integers. *)
Lemma overscroll_spec (s : Panel) (dy : Z) :
  overscroll s (JS.Fin dy) = true
  ↔ (scrollTop s < 0 ∧ dy < 0)
    ∨ (outerHeight s - 2 < scrollHeight s - scrollTop s < outerHeight s + 2
       ∧ 0 < dy).
Proof.
  unfold overscroll, JS.gt; simpl.
  rewrite orb_true_iff, !andb_true_iff, !Z.ltb_lt. lia.
Qed.

(** C3, as the specification states it, fails: a panel scrolled to the top
    (scrollTop = 0, content 1000px in a 600px box) whose touch is dragged
    10px down the page or 10px up the page, with no swipe recognized, does
    not get its default scrolling suppressed by the touchmove handler. *)
Lemma C3_at_top_not_suppressed :
  let cfg := navPanelConfig in
  let s := onTouchStart (Some {| pageX := 100; pageY := 200 |}) open_navPanel in
  scrollTop s = 0
  ∧ onTouchMove cfg (Some {| pageX := 100; pageY := 210 |}) fresh_event s
    = (s, fresh_event, RetUndefined)
  ∧ onTouchMove cfg (Some {| pageX := 100; pageY := 190 |}) fresh_event s
    = (s, fresh_event, RetUndefined).
Proof. vm_compute. done. Qed.

(** C3 (amended): in the touchmove handler, with coordinates recorded and
    no swipe recognized, preventDefault and stopPropagation are called
    exactly when scrollTop is negative (the panel is scrolled past its top)
    and diffY < 0, or scrollHeight - scrollTop lies strictly within 2px of
    the panel's outer height (it is scrolled to the bottom) and diffY > 0;
    the panel itself is left as it was. *)
Theorem C3_overscroll_guard (cfg : PanelConfig) (s : Panel) (x0 y0 : Z)
    (t : Touch) :
  touchPosX s = JS.Num x0 → touchPosY s = JS.Num y0 →
  hideOnSwipe cfg
    && evaluateSwipe (side cfg) (JS.Fin (x0 - pageX t)) (JS.Fin (y0 - pageY t))
  = false →
  let '(s', ev, r) := onTouchMove cfg (Some t) fresh_event s in
  s' = s ∧ r = RetUndefined
  ∧ defaultPrevented ev = propagationStopped ev
  ∧ (defaultPrevented ev = true
     ↔ (scrollTop s < 0 ∧ y0 - pageY t < 0)
       ∨ (outerHeight s - 2 < scrollHeight s - scrollTop s < outerHeight s + 2
          ∧ 0 < y0 - pageY t)).
Proof.
  intros HX HY Hno.
  rewrite (onTouchMove_tracking cfg t fresh_event s x0 y0 HX HY), Hno.
  pose proof (overscroll_spec s (y0 - pageY t)) as Hspec.
  destruct (overscroll s (JS.Fin (y0 - pageY t))); simpl;
    rewrite <- Hspec; intuition congruence.
Qed.

Lemma C3_overscroll_guard_witness :
  let s := set_scrollTop 400
             (onTouchStart (Some {| pageX := 100; pageY := 200 |}) open_navPanel) in
  let '(s', ev, r) :=
    onTouchMove navPanelConfig (Some {| pageX := 100; pageY := 190 |}) fresh_event s in
  s' = s ∧ r = RetUndefined
  ∧ defaultPrevented ev = propagationStopped ev
  ∧ (defaultPrevented ev = true
     ↔ (scrollTop s < 0 ∧ 200 - 190 < 0)
       ∨ (outerHeight s - 2 < scrollHeight s - scrollTop s < outerHeight s + 2
          ∧ 0 < 200 - 190)).
Proof.
  exact (C3_overscroll_guard navPanelConfig
           (set_scrollTop 400
              (onTouchStart (Some {| pageX := 100; pageY := 200 |}) open_navPanel))
           100 200 {| pageX := 100; pageY := 190 |} eq_refl eq_refl eq_refl).
Defined.

(** ** Coordinates along a touch sequence *)

Lemma foldl_run_task_touchPos (cfg : PanelConfig) (l : list Timer) (s : Panel) :
  touchPos (foldl (fun acc tm => run_task cfg (timer_task tm) acc) s l) = touchPos s.
Proof.
  revert s. induction l as [|tm l IH]; intros s; simpl; [done|].
  rewrite IH. destruct (timer_task tm); simpl.
  - unfold cleanup. by destruct (resetScroll cfg), (resetForms cfg).
  - unfold navigate. by destruct (JS.str_eq _ _).
Qed.

Lemma hide_touchPos' (cfg : PanelConfig) (event : option Event) (s : Panel) :
  touchPos (fst (_hide cfg event s)) = touchPos s.
Proof. unfold touchPos. by destruct (hide_touchPos cfg event s) as [-> ->]. Qed.

Lemma onBodyClick_touchPos (cfg : PanelConfig) (event : Event) (s : Panel) :
  touchPos (fst (onBodyClick cfg event s)) = touchPos s.
Proof.
  unfold onBodyClick. pose proof (hide_touchPos' cfg (Some event) s) as H.
  by destruct (_hide cfg (Some event) s).
Qed.

Lemma onLinkClick_touchPos (cfg : PanelConfig) (id : option string) (a : Anchor)
    (event : Event) (s : Panel) :
  touchPos (fst (onLinkClick cfg id a event s)) = touchPos s.
Proof.
  unfold onLinkClick. destruct (isValidHrefForPanelClick _ _); simpl; [|done].
  apply (hide_touchPos' cfg None s).
Qed.

Lemma body_click_touchPos (cfg : PanelConfig) (id : option string)
    (a : option Anchor) (event : Event) (s : Panel) :
  touchPos (fst (body_click cfg id a event s)) = touchPos s.
Proof.
  unfold body_click.
  destruct a as [x|]; [destruct (isStringNotEmpty id && matches_self id x)|];
    simpl; [done| |];
    (destruct (propagationStopped event); [done|apply onBodyClick_touchPos]).
Qed.

Lemma panel_click_touchPos (cfg : PanelConfig) (id : option string)
    (a : option Anchor) (event : Event) (s : Panel) :
  touchPos (fst (panel_click cfg id a event s)) = touchPos s.
Proof.
  unfold panel_click. destruct a as [x|]; [|done].
  pose proof (onLinkClick_touchPos cfg id x event s) as H.
  destruct (hideOnClick cfg); [destruct (onLinkClick cfg id x event s) as [s1 ev1]|];
    destruct (isStringNotEmpty id && matches_self id x); simpl in *; done.
Qed.

(** Clicks, key presses, touchends and timers never write the coordinates. *)
Lemma step_other_touchPos (cfg : PanelConfig) (id : option string)
    (e : DomEvent) (s : Panel) :
  match e with TouchStart _ | TouchMove _ => False | _ => True end →
  touchPos (step cfg id e s) = touchPos s.
Proof.
  destruct e as [| touch | | tgt | | k | tt]; simpl; try done; intros _.
  - unfold click. destruct (inside tgt); [|apply body_click_touchPos].
    pose proof (panel_click_touchPos cfg id (anchor tgt) fresh_event s) as H.
    destruct (panel_click cfg id (anchor tgt) fresh_event s) as [s1 ev1].
    destruct (propagationStopped ev1); [done|].
    simpl in H. rewrite <- H. apply body_click_touchPos.
  - apply onBodyClick_touchPos.
  - destruct (hideOnEscape cfg); [|done]. unfold onKeyDown.
    destruct (k =? 27); [|done].
    pose proof (hide_touchPos' cfg (Some fresh_event) s) as H.
    by destruct (_hide cfg (Some fresh_event) s).
  - unfold advance_to. by rewrite foldl_run_task_touchPos.
Qed.

(** Cleared coordinates stay cleared until the next touchstart. *)
Lemma step_touchPos_null (cfg : PanelConfig) (id : option string)
    (e : DomEvent) (s : Panel) :
  not_touchstart e = true →
  touchPos s = (JS.Null, JS.Null) →
  touchPos (step cfg id e s) = (JS.Null, JS.Null).
Proof.
  intros Hns Hpos. injection Hpos as HX HY.
  destruct e as [| touch | | tgt | | k | tt]; try done;
    try (rewrite step_other_touchPos by done; unfold touchPos; congruence).
  simpl. unfold touchmove.
  rewrite (onTouchMove_null cfg touch fresh_event s) by (by left).
  unfold touchPos. simpl. congruence.
Qed.

(** Recorded coordinates change only when a touchmove recognizes a swipe. *)
Lemma step_touchPos_tracking (cfg : PanelConfig) (id : option string)
    (e : DomEvent) (s : Panel) (t : Touch) :
  not_touchstart e = true →
  touchPos s = (JS.Num (pageX t), JS.Num (pageY t)) →
  touchPos (step cfg id e s) =
    if swipe_move cfg t e then (JS.Null, JS.Null)
    else (JS.Num (pageX t), JS.Num (pageY t)).
Proof.
  intros Hns Hpos. pose proof Hpos as Hpos'. injection Hpos' as HX HY.
  destruct e as [| touch | | tgt | | k | tt]; try done;
    try (rewrite step_other_touchPos by done; simpl; congruence).
  simpl. unfold touchmove. destruct touch as [p|].
  - rewrite (onTouchMove_tracking cfg p fresh_event s _ _ HX HY).
    destruct (hideOnSwipe cfg && evaluateSwipe _ _ _); simpl.
    + by rewrite hide_touchPos'.
    + by destruct (overscroll _ _).
  - unfold onTouchMove. rewrite HX, HY. simpl. exact Hpos.
Qed.

Lemma run_touchPos_null (cfg : PanelConfig) (id : option string)
    (es : list DomEvent) (s : Panel) :
  forallb not_touchstart es = true →
  touchPos s = (JS.Null, JS.Null) →
  touchPos (run cfg id es s) = (JS.Null, JS.Null).
Proof.
  revert s. induction es as [|e es IH]; intros s Hall Hpos; simpl; [done|].
  simpl in Hall. apply andb_true_iff in Hall as [He Hes].
  apply IH; [done|]. by apply step_touchPos_null.
Qed.

Lemma run_touchPos_tracking (cfg : PanelConfig) (id : option string)
    (t : Touch) (es : list DomEvent) (s : Panel) :
  forallb not_touchstart es = true →
  touchPos s = (JS.Num (pageX t), JS.Num (pageY t)) →
  touchPos (run cfg id es s) =
    if existsb (swipe_move cfg t) es then (JS.Null, JS.Null)
    else (JS.Num (pageX t), JS.Num (pageY t)).
Proof.
  revert s. induction es as [|e es IH]; intros s Hall Hpos; simpl; [done|].
  simpl in Hall. apply andb_true_iff in Hall as [He Hes].
  pose proof (step_touchPos_tracking cfg id e s t He Hpos) as Hstep.
  destruct (swipe_move cfg t e); simpl.
  - by apply run_touchPos_null.
  - by apply IH.
Qed.

(** C4, as the specification states it, fails: on the open navigation
    panel the sequence touchstart (100,200), touchmove (100,190), touchend
    recognizes no swipe, and the coordinates stored when it ends are still
    (100,200), not null. *)
Lemma C4_coordinates_survive_touchend :
  let gesture := [ TouchStart (Some {| pageX := 100; pageY := 200 |});
                   TouchMove (Some {| pageX := 100; pageY := 190 |});
                   TouchEnd ] in
  touchPos (run navPanelConfig (Some "navPanel"%string) gesture open_navPanel)
  = (JS.Num 100, JS.Num 200).
Proof. vm_compute. done. Qed.

(** C4 (amended): the stored coordinates are written by touchstart and are
    reset to null only by a touchmove that recognizes a swipe. After a touch
    sequence that starts at touch [t] and contains no further touchstart,
    the stored coordinates are null if hideOnSwipe is enabled and one of its
    touchmoves was a swipe measured from [t]; otherwise they are still the
    coordinates of [t], also after touchend. *)
Theorem C4_touch_state_after_gesture (cfg : PanelConfig) (id : option string)
    (t : Touch) (es : list DomEvent) (s : Panel) :
  forallb not_touchstart es = true →
  touchPos (run cfg id (TouchStart (Some t) :: es) s) =
    if existsb (swipe_move cfg t) es then (JS.Null, JS.Null)
    else (JS.Num (pageX t), JS.Num (pageY t)).
Proof.
  intros Hall. simpl. by apply run_touchPos_tracking.
Qed.

Lemma C4_touch_state_after_gesture_witness :
  forallb not_touchstart
    [ TouchMove (Some {| pageX := 100; pageY := 210 |}); TouchEnd ] = true
  ∧ touchPos (run navPanelConfig (Some "navPanel"%string)
                [ TouchStart (Some {| pageX := 30; pageY := 200 |});
                  TouchMove (Some {| pageX := 100; pageY := 210 |});
                  TouchEnd ] open_navPanel)
    = (JS.Null, JS.Null).
Proof.
  split; [reflexivity|].
  exact (C4_touch_state_after_gesture navPanelConfig (Some "navPanel"%string)
           {| pageX := 30; pageY := 200 |}
           [ TouchMove (Some {| pageX := 100; pageY := 210 |}); TouchEnd ]
           open_navPanel eq_refl).
Defined.

(** ** Hiding *)

(** C5: for every configuration, [_hide] on a panel whose target does not
    carry visibleClass changes nothing: the classes, the scroll position and
    the forms are as before, no callback is scheduled and the event passed
    in is not cancelled; hence no callback ever resets the scroll position
    or a form, or navigates, on its behalf. *)
Theorem C5_hide_when_closed_is_noop (cfg : PanelConfig) (event : option Event)
    (s : Panel) :
  visible cfg s = false →
  _hide cfg event s = (s, event)
  ∧ ∀ t : Z, advance_to cfg t (fst (_hide cfg event s)) = advance_to cfg t s.
Proof.
  intros Hclosed. unfold visible in Hclosed.
  assert (_hide cfg event s = (s, event)) as H.
  { unfold _hide. by rewrite Hclosed. }
  split; [exact H|]. intros t. by rewrite H.
Qed.

Lemma C5_hide_when_closed_is_noop_witness :
  visible navPanelConfig closed_navPanel = false
  ∧ _hide navPanelConfig (Some fresh_event) closed_navPanel
    = (closed_navPanel, Some fresh_event).
Proof.
  split; [reflexivity|].
  exact (proj1 (C5_hide_when_closed_is_noop navPanelConfig (Some fresh_event)
                  closed_navPanel eq_refl)).
Defined.

(** ** Link clicks *)

Lemma str_eq_true (v : option string) (x : string) :
  JS.str_eq v x = true ↔ v = Some x.
Proof.
  destruct v as [y|]; simpl; [|done].
  rewrite bool_decide_eq_true. split; congruence.
Qed.

Lemma str_eq_decide (v : option string) (x : string) :
  JS.str_eq v x = bool_decide (v = Some x).
Proof.
  destruct (JS.str_eq v x) eqn:E; symmetry.
  - apply bool_decide_eq_true. by apply str_eq_true.
  - apply bool_decide_eq_false. intros H. apply str_eq_true in H. congruence.
Qed.

Lemma isStringNotEmpty_true (v : option string) :
  isStringNotEmpty v = true ↔ ∃ h, v = Some h ∧ h ≠ ""%string.
Proof.
  destruct v as [h|]; simpl.
  - rewrite bool_decide_eq_true. split.
    + intros Hlen. exists h. split; [done|]. intros ->. simpl in Hlen. lia.
    + intros (h' & [= <-] & Hne). destruct h; [done|]. simpl. lia.
  - split; [done|]. by intros (h & ? & _).
Qed.

(** The hrefs the click handler acts on. *)
Lemma isValidHrefForPanelClick_spec (hrefVal id : option string) :
  isValidHrefForPanelClick hrefVal id = true
  ↔ ∃ h, hrefVal = Some h ∧ h ≠ ""%string ∧ h ≠ "#"%string
         ∧ ∀ i, id = Some i → h ≠ ("#" ++ i)%string.
Proof.
  unfold isValidHrefForPanelClick.
  destruct (isStringNotEmpty hrefVal) eqn:Hne; simpl.
  - apply isStringNotEmpty_true in Hne as (h & -> & Hne).
    rewrite !str_eq_decide.
    case_bool_decide as H1; [|simpl].
    { split; [done|]. intros (h' & [= <-] & _ & Hh & _). congruence. }
    assert (h ≠ "#"%string) as H1' by congruence.
    destruct id as [i|]; simpl.
    + destruct (bool_decide (i = ""%string)) eqn:Hi; simpl.
      * apply bool_decide_eq_true in Hi as ->.
        split; [|done]. intros _. exists h. repeat split; try done.
        intros i [= <-]. done.
      * apply bool_decide_eq_false in Hi. case_bool_decide as H2.
        -- split; [done|]. intros (h' & [= <-] & _ & _ & Hid).
           injection H2 as H2. by destruct (Hid i eq_refl).
        -- split; [|done]. intros _. exists h. repeat split; try done.
           intros i' [= <-]. congruence.
    + split; [|done]. intros _. exists h. repeat split; done.
  - split; [done|]. intros (h & -> & Hh & _).
    assert (isStringNotEmpty (Some h) = true) as H.
    { apply isStringNotEmpty_true. by exists h. }
    congruence.
Qed.

Lemma elem_of_insert_timer (t : Timer) (l : list Timer) : t ∈ insert_timer t l.
Proof.
  induction l as [|u r IH]; simpl.
  - apply list_elem_of_here.
  - destruct (timer_due u <=? timer_due t).
    + by apply list_elem_of_further.
    + apply list_elem_of_here.
Qed.





Lemma effects_cleanup (cfg : PanelConfig) (s : Panel) :
  effects (cleanup cfg s) = effects s.
Proof. unfold cleanup. by destruct (resetScroll cfg), (resetForms cfg). Qed.

Lemma effects_navigate (targetVal hrefVal : option string) (s : Panel) :
  effects (navigate targetVal hrefVal s) =
    effects s ++ [ if decide (targetVal = Some "_blank"%string)
                   then WindowOpen hrefVal else LocationAssign hrefVal ].
Proof.
  unfold navigate. rewrite str_eq_decide.
  case_bool_decide; case_decide; done.
Qed.

(** The navigations a list of fired timers performs, in order. *)
Lemma effects_foldl_run_task (cfg : PanelConfig) (l : list Timer) (s : Panel) :
  effects (foldl (fun acc tm => run_task cfg (timer_task tm) acc) s l) =
    effects s ++ flat_map (fun tm => task_effects (timer_task tm)) l.
Proof.
  revert s. induction l as [|tm l IH]; intros s; simpl.
  - by rewrite app_nil_r.
  - rewrite IH. destruct (timer_task tm) as [|tv hv]; simpl.
    + by rewrite effects_cleanup.
    + rewrite effects_navigate, <- app_assoc. simpl. do 2 f_equal.
      rewrite str_eq_decide. case_bool_decide; case_decide; done.
Qed.







(** ** Form cleanup *)

Lemma try_reset_spec (f : Form) :
  (reset_throws f = false → form_value (try_reset f) = form_default f)
  ∧ (reset_throws f = true → try_reset f = f).
Proof. unfold try_reset, reset. by destruct (reset_throws f). Qed.

Lemma forms_cleanup (cfg : PanelConfig) (s : Panel) :
  resetForms cfg = true → forms (cleanup cfg s) = try_reset <$> forms s.
Proof. intros H. unfold cleanup. rewrite H. by destruct (resetScroll cfg). Qed.

Lemma try_reset_idemp (f : Form) : try_reset (try_reset f) = try_reset f.
Proof. unfold try_reset, reset. by destruct f as [v d []]. Qed.

(** Running callbacks resets the forms as soon as one of them is a cleanup,
    and resetting them again changes nothing. *)
Lemma foldl_run_task_forms (cfg : PanelConfig) (l : list Timer) (s : Panel) :
  resetForms cfg = true →
  forms (foldl (fun acc tm => run_task cfg (timer_task tm) acc) s l) =
    if existsb (fun tm => is_cleanup (timer_task tm)) l
    then try_reset <$> forms s else forms s.
Proof.
  intros Hrf. revert s. induction l as [|tm l IH]; intros s; simpl; [done|].
  rewrite IH. destruct (timer_task tm) as [|tv hv]; simpl.
  - rewrite forms_cleanup by done.
    destruct (existsb _ l); [|done].
    rewrite <- list_fmap_compose. apply list_fmap_ext.
    intros k f _. apply try_reset_idemp.
  - unfold navigate. by destruct (JS.str_eq tv "_blank").
Qed.

(** C8: with resetForms, hiding an open panel schedules the cleanup, and
    once the delay has passed every form of the panel whose reset() does
    not throw has been reset to its default value, whatever the other forms
    do; a form whose reset() throws is left as it was, and the number of
    forms is unchanged. *)
Theorem C8_form_reset_isolated (cfg : PanelConfig) (event : option Event)
    (s : Panel) (t : Z) :
  resetForms cfg = true →
  visible cfg s = true →
  clock s + Z.max 0 (delay cfg) ≤ t →
  let s' := advance_to cfg t (fst (_hide cfg event s)) in
  length (forms s') = length (forms s)
  ∧ ∀ (i : nat) (f : Form), forms s !! i = Some f →
      ∃ f', forms s' !! i = Some f'
            ∧ (reset_throws f = false → form_value f' = form_default f)
            ∧ (reset_throws f = true → f' = f).
Proof.
  intros Hrf Hvis Hdue s'.
  assert (forms s' = try_reset <$> forms s) as Hforms.
  { subst s'. unfold _hide. unfold visible in Hvis. rewrite Hvis.
    cbn [negb fst]. unfold advance_to.
    rewrite foldl_run_task_forms by done. cbn [forms set_clock set_timers].
    set (T := {| timer_due := clock s + Z.max 0 (delay cfg);
                 timer_task := Cleanup |}).
    assert (existsb (fun tm => is_cleanup (timer_task tm))
              (List.filter (due_by t)
                 (timers (setTimeout Cleanup (delay cfg)
                    (set_classes
                       (removeClass (visibleClass cfg) (target_classes s)) s))))
            = true) as ->; [|done].
    apply existsb_exists. exists T. split; [|done].
    apply filter_In. split.
    - apply list_elem_of_In. apply elem_of_insert_timer.
    - unfold due_by. apply Z.leb_le. exact Hdue. }
  rewrite Hforms. split; [apply length_fmap|].
  intros i f Hi. exists (try_reset f).
  rewrite list_lookup_fmap, Hi. split; [done|]. apply try_reset_spec.
Qed.

Lemma C8_form_reset_isolated_witness :
  let s := new_panel {[ visibleClass navPanelConfig ]} two_forms in
  let s' := advance_to navPanelConfig 500 (fst (_hide navPanelConfig None s)) in
  (resetForms navPanelConfig = true ∧ visible navPanelConfig s = true
   ∧ clock s + Z.max 0 (delay navPanelConfig) ≤ 500)
  ∧ ∃ f', forms s' !! 1%nat = Some f' ∧ form_value f' = "b"%string.
Proof.
  intros s s'.
  assert (clock s + Z.max 0 (delay navPanelConfig) ≤ 500) as Hdue
    by (by vm_compute).
  split; [by repeat split|].
  destruct (C8_form_reset_isolated navPanelConfig None s 500
              eq_refl eq_refl Hdue) as [_ H].
  destruct (H 1%nat _ eq_refl) as (f' & Hf' & Hreset & _).
  exists f'. split; [exact Hf'|]. exact (Hreset eq_refl).
Defined.

(** ** Toggling *)

(** Outside the panel an anchor pointing to the panel's id is served by
    the body's toggle handler alone. *)
Lemma click_toggle_anchor_outside (cfg : PanelConfig) (i : string) (a : Anchor)
    (s : Panel) :
  i ≠ ""%string →
  href a = Some ("#" ++ i)%string →
  click cfg (Some i) {| inside := false; anchor := Some a |} s
  = onToggleClick cfg fresh_event s.
Proof.
  intros Hi Ha. unfold click, body_click. cbn [inside anchor].
  assert (isStringNotEmpty (Some i) = true) as ->.
  { apply isStringNotEmpty_true. by exists i. }
  assert (matches_self (Some i) a = true) as ->.
  { unfold matches_self. by apply str_eq_true. }
  reflexivity.
Qed.

(** Inside the panel it is served by the panel's own handler, which only
    removes visibleClass. *)
Lemma click_self_anchor_inside (cfg : PanelConfig) (i : string) (a : Anchor)
    (s : Panel) :
  i ≠ ""%string →
  href a = Some ("#" ++ i)%string →
  click cfg (Some i) {| inside := true; anchor := Some a |} s
  = (set_classes (removeClass (visibleClass cfg) (target_classes s)) s,
     stopPropagation (preventDefault fresh_event)).
Proof.
  intros Hi Ha. unfold click, panel_click. cbn [inside anchor].
  assert (isStringNotEmpty (Some i) = true) as Hid.
  { apply isStringNotEmpty_true. by exists i. }
  assert (matches_self (Some i) a = true) as Hself.
  { unfold matches_self. by apply str_eq_true. }
  assert (isValidHrefForPanelClick (href a) (Some i) = false) as Hinv.
  { apply not_true_is_false. intros Hv.
    apply isValidHrefForPanelClick_spec in Hv as (h & Hh & _ & _ & Hne).
    rewrite Ha in Hh. injection Hh as <-. by apply (Hne i). }
  rewrite Hid, Hself. unfold onLinkClick. rewrite Hinv.
  by destruct (hideOnClick cfg).
Qed.

(** C9, as the specification states it, fails for the anchor main.js puts
    inside the navigation panel ([<a href="#navPanel" class="close">]): a
    click on it leaves the closed panel closed, so it does not flip
    visibleClass, and two clicks on it leave the open panel closed, so they
    do not restore the original state. *)
Lemma C9_inside_anchor_does_not_toggle :
  let id := Some "navPanel"%string in
  let tgt := {| inside := true;
                anchor := Some {| href := Some "#navPanel"%string;
                                  target := None |} |} in
  visible navPanelConfig closed_navPanel = false
  ∧ visible navPanelConfig (fst (click navPanelConfig id tgt closed_navPanel))
    = false
  ∧ visible navPanelConfig open_navPanel = true
  ∧ visible navPanelConfig
      (fst (click navPanelConfig id tgt
              (fst (click navPanelConfig id tgt open_navPanel)))) = false.
Proof. vm_compute. done. Qed.

(** C9 (amended): for a panel whose id is not empty and has no double
    quote, backslash or control character, a click on an anchor outside the
    panel whose href is "#<id>" runs the body's toggle handler and nothing
    else: it flips visibleClass on the target, and two such clicks in a row
    give back the panel as it was, whether it was open or closed. A click on
    an anchor with that href inside the panel does not toggle: it only
    removes visibleClass, so an open panel closes and a closed one stays
    closed. *)
Theorem C9_toggle_anchor (cfg : PanelConfig) (i : string) (a : Anchor)
    (s : Panel) :
  i ≠ ""%string →
  selector_safe i = true →
  href a = Some ("#" ++ i)%string →
  (let tgt := {| inside := false; anchor := Some a |} in
   click cfg (Some i) tgt s = onToggleClick cfg fresh_event s
   ∧ visible cfg (fst (click cfg (Some i) tgt s)) = negb (visible cfg s)
   ∧ fst (click cfg (Some i) tgt (fst (click cfg (Some i) tgt s))) = s)
  ∧ (let tgt := {| inside := true; anchor := Some a |} in
     fst (click cfg (Some i) tgt s)
     = set_classes (removeClass (visibleClass cfg) (target_classes s)) s
     ∧ visible cfg (fst (click cfg (Some i) tgt s)) = false).
Proof.
  intros Hi _ Ha. split.
  - cbn zeta. rewrite !(click_toggle_anchor_outside cfg i a) by done.
    split; [done|]. unfold onToggleClick. cbn [fst]. split.
    + apply hasClass_toggleClass.
    + rewrite set_classes_twice. cbn [target_classes set_classes].
      rewrite toggleClass_involutive. by destruct s.
  - cbn zeta. rewrite (click_self_anchor_inside cfg i a) by done.
    split; [done|]. apply hasClass_removeClass.
Qed.

Lemma C9_toggle_anchor_witness :
  let a := {| href := Some "#navPanel"%string; target := None |} in
  let tgt := {| inside := false; anchor := Some a |} in
  let id := Some "navPanel"%string in
  ("navPanel"%string ≠ ""%string ∧ selector_safe "navPanel" = true)
  ∧ visible navPanelConfig (fst (click navPanelConfig id tgt closed_navPanel)) = true
  ∧ fst (click navPanelConfig id tgt (fst (click navPanelConfig id tgt closed_navPanel)))
    = closed_navPanel
  ∧ fst (click navPanelConfig id tgt (fst (click navPanelConfig id tgt open_navPanel)))
    = open_navPanel.
Proof.
  intros a tgt id.
  assert ("navPanel"%string ≠ ""%string) as Hne by done.
  destruct (C9_toggle_anchor navPanelConfig "navPanel" a closed_navPanel
              Hne eq_refl eq_refl) as [(_ & Hflip & Hback) _].
  destruct (C9_toggle_anchor navPanelConfig "navPanel" a open_navPanel
              Hne eq_refl eq_refl) as [(_ & _ & Hback') _].
  split; [by split|].
  split; [exact Hflip|]. split; [exact Hback|exact Hback'].
Defined.

(** ** A touchmove before any touchstart *)

(** C10: while the stored coordinates are still undefined, the touchmove
    handler does nothing: both differences are NaN, [evaluateSwipe] rejects
    them for every side and the overscroll condition is false, so the panel
    is not hidden, nothing is scheduled, the event is not cancelled and the
    handler returns undefined. *)
Theorem C10_touchmove_before_touchstart (cfg : PanelConfig)
    (touch : option Touch) (event : Event) (s : Panel) :
  touchPosX s = JS.Undefined →
  touchPosY s = JS.Undefined →
  onTouchMove cfg touch event s = (s, event, RetUndefined)
  ∧ (∀ p : Z, JS.sub (JS.to_number (touchPosX s)) (JS.Fin p) = JS.NaN
              ∧ JS.sub (JS.to_number (touchPosY s)) (JS.Fin p) = JS.NaN)
  ∧ (∀ sd, evaluateSwipe sd JS.NaN JS.NaN = false)
  ∧ overscroll s JS.NaN = false.
Proof.
  intros HX HY. split; [|split; [|split]].
  - unfold onTouchMove. rewrite HX, HY. simpl.
    destruct touch as [t|]; [|done].
    by rewrite evaluateSwipe_NaN, andb_false_r, overscroll_NaN.
  - intros p. by rewrite HX, HY.
  - apply evaluateSwipe_NaN.
  - apply overscroll_NaN.
Qed.

Lemma C10_touchmove_before_touchstart_witness :
  touchPosX open_navPanel = JS.Undefined
  ∧ touchPosY open_navPanel = JS.Undefined
  ∧ onTouchMove navPanelConfig (Some {| pageX := 30; pageY := 210 |})
      fresh_event open_navPanel
    = (open_navPanel, fresh_event, RetUndefined).
Proof.
  split; [reflexivity|]. split; [reflexivity|].
  exact (proj1 (C10_touchmove_before_touchstart navPanelConfig
                  (Some {| pageX := 30; pageY := 210 |}) fresh_event
                  open_navPanel eq_refl eq_refl)).
Defined.

(** ** Further properties of swipe evaluation *)

(** Only the four named sides accept a movement, each on its own terms. *)
Lemma evaluateSwipe_true (sd : option string) (dx dy : JS.num) :
  evaluateSwipe sd dx dy = true →
  ∃ x y, dx = JS.Fin x ∧ dy = JS.Fin y
    ∧ ((sd = Some "left"%string ∧ -20 < y < 20 ∧ 50 < x)
       ∨ (sd = Some "right"%string ∧ -20 < y < 20 ∧ x < -50)
       ∨ (sd = Some "top"%string ∧ -20 < x < 20 ∧ 50 < y)
       ∨ (sd = Some "bottom"%string ∧ -20 < x < 20 ∧ y < -50)).
Proof.
  unfold evaluateSwipe, JS.gt.
  destruct (JS.str_eq sd "left") eqn:El;
    [|destruct (JS.str_eq sd "right") eqn:Er;
      [|destruct (JS.str_eq sd "top") eqn:Et;
        [|destruct (JS.str_eq sd "bottom") eqn:Eb; [|done]]]];
    destruct dx as [|x], dy as [|y]; simpl; rewrite ?andb_false_r; try done;
    rewrite !andb_true_iff, !Z.ltb_lt; intros H; exists x, y;
    (split; [done|]); (split; [done|]).
  - left. apply str_eq_true in El. split; [done|lia].
  - right; left. apply str_eq_true in Er. split; [done|lia].
  - right; right; left. apply str_eq_true in Et. split; [done|lia].
  - right; right; right. apply str_eq_true in Eb. split; [done|lia].
Qed.

(** X1: a movement is a swipe for at most one side: whatever diffX and
    diffY are, two different values of [side] never both accept them. *)
Theorem X1_swipe_sides_exclusive (sd1 sd2 : option string) (dx dy : JS.num) :
  evaluateSwipe sd1 dx dy = true →
  evaluateSwipe sd2 dx dy = true →
  sd1 = sd2.
Proof.
  intros H1 H2.
  apply evaluateSwipe_true in H1 as (x & y & -> & -> & H1).
  apply evaluateSwipe_true in H2 as (x' & y' & [= <-] & [= <-] & H2).
  destruct H1 as [[-> ?]|[[-> ?]|[[-> ?]|[-> ?]]]];
    destruct H2 as [[-> ?]|[[-> ?]|[[-> ?]|[-> ?]]]]; (done || lia).
Qed.

Lemma X1_swipe_sides_exclusive_witness :
  evaluateSwipe (Some "left"%string) (JS.Fin 60) (JS.Fin 0) = true
  ∧ Some "left"%string = Some "left"%string.
Proof.
  split; [reflexivity|].
  exact (X1_swipe_sides_exclusive (Some "left"%string) (Some "left"%string)
           (JS.Fin 60) (JS.Fin 0) eq_refl eq_refl).
Defined.

(** X2: a touchmove that stays within 50px of the recorded touchstart on
    both axes is never a swipe, for any side and any configuration: the
    panel is left exactly as it was and the handler does not return false. *)
Theorem X2_short_move_never_hides (cfg : PanelConfig) (s : Panel)
    (x0 y0 : Z) (t : Touch) (event : Event) :
  touchPosX s = JS.Num x0 → touchPosY s = JS.Num y0 →
  -50 ≤ x0 - pageX t ≤ 50 →
  -50 ≤ y0 - pageY t ≤ 50 →
  fst (fst (onTouchMove cfg (Some t) event s)) = s
  ∧ snd (onTouchMove cfg (Some t) event s) = RetUndefined.
Proof.
  intros HX HY Hx Hy.
  rewrite (onTouchMove_tracking cfg t event s x0 y0 HX HY).
  destruct (evaluateSwipe (side cfg) (JS.Fin (x0 - pageX t))
              (JS.Fin (y0 - pageY t))) eqn:E.
  - apply evaluateSwipe_true in E as (x & y & [= <-] & [= <-] & E). lia.
  - rewrite andb_false_r. by destruct (overscroll _ _).
Qed.

Lemma X2_short_move_never_hides_witness :
  let s := onTouchStart (Some {| pageX := 100; pageY := 200 |}) open_navPanel in
  fst (fst (onTouchMove navPanelConfig (Some {| pageX := 150; pageY := 200 |})
              fresh_event s)) = s.
Proof.
  intros s.
  assert (-50 ≤ 100 - 150 ≤ 50) as Hx by lia.
  assert (-50 ≤ 200 - 200 ≤ 50) as Hy by lia.
  exact (proj1 (X2_short_move_never_hides navPanelConfig s 100 200
                  {| pageX := 150; pageY := 200 |} fresh_event
                  eq_refl eq_refl Hx Hy)).
Defined.

(** X3: the four sides apply one test up to reflection and exchange of the
    axes: 'right' is 'left' with diffX negated, 'bottom' is 'top' with diffY
    negated, and 'top' is 'left' with the two differences exchanged. *)
Theorem X3_swipe_sides_symmetric (x y : Z) :
  evaluateSwipe (Some "right"%string) (JS.Fin x) (JS.Fin y)
  = evaluateSwipe (Some "left"%string) (JS.Fin (- x)) (JS.Fin y)
  ∧ evaluateSwipe (Some "bottom"%string) (JS.Fin x) (JS.Fin y)
    = evaluateSwipe (Some "top"%string) (JS.Fin x) (JS.Fin (- y))
  ∧ evaluateSwipe (Some "top"%string) (JS.Fin x) (JS.Fin y)
    = evaluateSwipe (Some "left"%string) (JS.Fin y) (JS.Fin x).
Proof.
  unfold evaluateSwipe, JS.gt; simpl.
  repeat split; f_equal;
    repeat match goal with
           | |- context [?a <? ?b] => destruct (Z.ltb_spec a b)
           end; (done || lia).
Qed.

(** X4: when [side] is none of 'left', 'right', 'top' and 'bottom' (as in
    the defaults, where it is null), no touchmove ever hides the panel or
    clears the recorded coordinates, even with hideOnSwipe set. *)
Theorem X4_no_side_no_swipe (cfg : PanelConfig) (touch : option Touch)
    (event : Event) (s : Panel) :
  side cfg ≠ Some "left"%string → side cfg ≠ Some "right"%string →
  side cfg ≠ Some "top"%string → side cfg ≠ Some "bottom"%string →
  fst (fst (onTouchMove cfg touch event s)) = s
  ∧ snd (onTouchMove cfg touch event s) = RetUndefined.
Proof.
  intros Hl Hr Ht Hb.
  assert (∀ dx dy, evaluateSwipe (side cfg) dx dy = false) as Hno.
  { intros dx dy. apply not_true_is_false. intros E.
    apply evaluateSwipe_true in E as (x & y & _ & _ & E).
    destruct E as [[? _]|[[? _]|[[? _]|[? _]]]]; congruence. }
  unfold onTouchMove.
  destruct (JS.is_null (touchPosX s) || JS.is_null (touchPosY s)); [done|].
  destruct touch as [t|]; [|done].
  rewrite Hno, andb_false_r. by destruct (overscroll _ _).
Qed.

Lemma X4_no_side_no_swipe_witness :
  let s := onTouchStart (Some {| pageX := 100; pageY := 200 |})
             (new_panel {[ visibleClass defaults ]} []) in
  side defaults = None
  ∧ fst (fst (onTouchMove defaults (Some {| pageX := 300; pageY := 200 |})
                fresh_event s)) = s.
Proof.
  intros s. split; [reflexivity|].
  assert (∀ x : string, side defaults ≠ Some x) as H by done.
  exact (proj1 (X4_no_side_no_swipe defaults
                  (Some {| pageX := 300; pageY := 200 |}) fresh_event s
                  (H _) (H _) (H _) (H _))).
Defined.

(** ** Further properties of the handlers *)

(** Split on every test a handler makes. *)
Ltac handler_cases :=
  unfold touchmove, click, panel_click, body_click, onLinkClick,
    onSelfAnchorClick, onToggleClick, onBodyClick, onKeyDown, onTouchMove,
    onTouchStart, onInsideEvent, _hide, setTimeout in *;
  repeat case_match; simplify_eq/=.

(** [_hide] always leaves the target without visibleClass and the other
    classes in place. *)
Lemma hide_classes (cfg : PanelConfig) (event : option Event) (s : Panel) :
  target_classes (fst (_hide cfg event s))
  = removeClass (visibleClass cfg) (target_classes s).
Proof.
  unfold _hide. destruct (hasClass _ _) eqn:E; [done|]. simpl.
  apply bool_decide_eq_false in E. unfold removeClass.
  apply set_eq. intros x. rewrite elem_of_difference, elem_of_singleton.
  split; [|tauto]. intros Hx. split; [done|]. by intros ->.
Qed.

Lemma foldl_run_task_classes (cfg : PanelConfig) (l : list Timer) (s : Panel) :
  target_classes (foldl (fun acc tm => run_task cfg (timer_task tm) acc) s l)
  = target_classes s.
Proof.
  revert s. induction l as [|tm l IH]; intros s; simpl; [done|].
  rewrite IH. destruct (timer_task tm); simpl.
  - unfold cleanup. by destruct (resetScroll cfg), (resetForms cfg).
  - unfold navigate. by destruct (JS.str_eq _ _).
Qed.

Lemma removeClass_idemp (c : string) (cs : gset string) :
  removeClass c (removeClass c cs) = removeClass c cs.
Proof.
  unfold removeClass. apply set_eq. intros x.
  rewrite !elem_of_difference. tauto.
Qed.

(** What an event can do to the target's classes. *)
Lemma step_classes (cfg : PanelConfig) (id : option string) (e : DomEvent)
    (s : Panel) :
  target_classes (step cfg id e s) = target_classes s
  ∨ target_classes (step cfg id e s)
    = removeClass (visibleClass cfg) (target_classes s)
  ∨ (is_toggle_click id e = true
     ∧ target_classes (step cfg id e s)
       = toggleClass (visibleClass cfg) (target_classes s)).
Proof.
  destruct e as [touch|touch| |tgt| |k|t]; simpl.
  - left. by destruct touch.
  - handler_cases; rewrite ?removeClass_idemp; auto.
  - by left.
  - destruct tgt as [ins a]; destruct ins; simpl.
    + handler_cases; rewrite ?removeClass_idemp; auto.
    + destruct a as [a|]; [destruct (isStringNotEmpty id && matches_self id a) eqn:E|];
        handler_cases; rewrite ?removeClass_idemp; try congruence; auto.
  - handler_cases; auto.
  - handler_cases; auto.
  - left. unfold advance_to. by rewrite foldl_run_task_classes.
Qed.

Lemma run_cons (cfg : PanelConfig) (id : option string) (e : DomEvent)
    (es : list DomEvent) (s : Panel) :
  run cfg id (e :: es) s = run cfg id es (step cfg id e s).
Proof. reflexivity. Qed.

(** X5: hiding twice in a row is hiding once: after [_hide] a second
    [_hide] changes nothing, schedules no second cleanup and does not cancel
    its event. *)
Theorem X5_hide_twice (cfg : PanelConfig) (e1 e2 : option Event) (s : Panel) :
  _hide cfg e2 (fst (_hide cfg e1 s)) = (fst (_hide cfg e1 s), e2).
Proof.
  pose proof (hide_not_visible cfg e1 s) as H. unfold visible in H.
  unfold _hide at 1. by rewrite H.
Qed.

(** X6: whatever events occur, in any order, the plugin adds or removes no
    class of the target other than visibleClass. *)
Theorem X6_other_classes_untouched (cfg : PanelConfig) (id : option string)
    (es : list DomEvent) (s : Panel) (c : string) :
  c ≠ visibleClass cfg →
  c ∈ target_classes (run cfg id es s) ↔ c ∈ target_classes s.
Proof.
  intros Hc. revert s. induction es as [|e es IH]; intros s; [done|].
  rewrite run_cons, IH.
  destruct (step_classes cfg id e s) as [->|[->|[_ ->]]]; [done| |].
  - unfold removeClass. rewrite elem_of_difference, elem_of_singleton. tauto.
  - unfold toggleClass, removeClass, addClass. destruct (hasClass _ _).
    + rewrite elem_of_difference, elem_of_singleton. tauto.
    + rewrite elem_of_union, elem_of_singleton. tauto.
Qed.

Lemma X6_other_classes_untouched_witness :
  "is-preload"%string ≠ visibleClass navPanelConfig
  ∧ ("is-preload"%string
       ∈ target_classes
           (run navPanelConfig (Some "navPanel"%string)
              [ Click {| inside := false; anchor := None |}; KeyDown 27 ]
              (new_panel {[ "is-preload"%string; visibleClass navPanelConfig ]} []))
     ↔ "is-preload"%string
       ∈ target_classes
           (new_panel {[ "is-preload"%string; visibleClass navPanelConfig ]} [])).
Proof.
  assert ("is-preload"%string ≠ visibleClass navPanelConfig) as H by done.
  split; [exact H|].
  exact (X6_other_classes_untouched navPanelConfig (Some "navPanel"%string)
           [ Click {| inside := false; anchor := None |}; KeyDown 27 ]
           (new_panel {[ "is-preload"%string; visibleClass navPanelConfig ]} [])
           "is-preload"%string H).
Defined.

(** X7: for a panel without id, or with an id that has no double quote,
    backslash or control character: a closed panel is opened by nothing but
    a click on an anchor outside the panel whose href is "#<id>": after any
    sequence of other events (touches, other clicks, key presses, elapsed
    time) it is still closed. *)
Theorem X7_opens_only_by_toggle (cfg : PanelConfig) (id : option string)
    (es : list DomEvent) (s : Panel) :
  plain_id id = true →
  forallb (fun e => negb (is_toggle_click id e)) es = true →
  visible cfg s = false →
  visible cfg (run cfg id es s) = false.
Proof.
  intros _. revert s. induction es as [|e es IH]; intros s Hall Hclosed; [done|].
  simpl in Hall. apply andb_true_iff in Hall as [He Hes].
  rewrite run_cons. apply IH; [done|]. unfold visible in *.
  destruct (step_classes cfg id e s) as [->|[->|[Ht _]]]; [done| |].
  - apply hasClass_removeClass.
  - rewrite Ht in He. done.
Qed.

Lemma X7_opens_only_by_toggle_witness :
  plain_id (Some "navPanel"%string) = true
  ∧ visible navPanelConfig closed_navPanel = false
  ∧ visible navPanelConfig
      (run navPanelConfig (Some "navPanel"%string)
         [ TouchStart (Some {| pageX := 30; pageY := 200 |});
           TouchMove (Some {| pageX := 100; pageY := 210 |});
           Click {| inside := true;
                    anchor := Some {| href := Some "/about"%string;
                                      target := None |} |};
           Elapse 1000 ]
         closed_navPanel) = false.
Proof.
  split; [reflexivity|]. split; [reflexivity|].
  exact (X7_opens_only_by_toggle navPanelConfig (Some "navPanel"%string)
           [ TouchStart (Some {| pageX := 30; pageY := 200 |});
             TouchMove (Some {| pageX := 100; pageY := 210 |});
             Click {| inside := true;
                      anchor := Some {| href := Some "/about"%string;
                                        target := None |} |};
             Elapse 1000 ]
           closed_navPanel eq_refl eq_refl eq_refl).
Defined.

(** X8: for a panel without id, or with an id that has no double quote,
    backslash or control character: a click inside the panel never reaches
    the body's handlers, and it leaves the panel exactly as it was unless it
    hits an anchor that the link-click handler accepts (under hideOnClick)
    or that points to the panel's own id. *)
Theorem X8_inside_click_is_inert (cfg : PanelConfig) (id : option string)
    (a : option Anchor) (s : Panel) :
  plain_id id = true →
  match a with
  | Some x => (hideOnClick cfg && isValidHrefForPanelClick (href x) id)
              || (isStringNotEmpty id && matches_self id x)
  | None => false
  end = false →
  click cfg id {| inside := true; anchor := a |} s
  = (s, stopPropagation fresh_event).
Proof.
  intros _ H. unfold click, panel_click. cbn [inside anchor].
  destruct a as [x|]; [|done].
  apply orb_false_iff in H as [H1 H2]. rewrite H2.
  destruct (hideOnClick cfg); [|done]. simpl in H1.
  unfold onLinkClick. by rewrite H1.
Qed.

Lemma X8_inside_click_is_inert_witness :
  plain_id (Some "navPanel"%string) = true
  ∧ click navPanelConfig (Some "navPanel"%string)
    {| inside := true; anchor := Some {| href := Some "#"%string; target := None |} |}
    open_navPanel
  = (open_navPanel, stopPropagation fresh_event).
Proof.
  split; [reflexivity|].
  exact (X8_inside_click_is_inert navPanelConfig (Some "navPanel"%string)
           (Some {| href := Some "#"%string; target := None |})
           open_navPanel eq_refl eq_refl).
Defined.

(** X9: for a panel whose id is not empty and has no double quote,
    backslash or control character: a click on an anchor inside the panel
    whose href is "#<id>" (the close button) cancels the click and removes
    visibleClass directly, with or without hideOnClick: unlike [_hide] it
    schedules no cleanup, so the scroll position and the forms are not
    reset afterwards. *)
Theorem X9_close_anchor_skips_cleanup (cfg : PanelConfig) (i : string)
    (a : Anchor) (s : Panel) :
  i ≠ ""%string →
  selector_safe i = true →
  href a = Some ("#" ++ i)%string →
  click cfg (Some i) {| inside := true; anchor := Some a |} s
  = (set_classes (removeClass (visibleClass cfg) (target_classes s)) s,
     stopPropagation (preventDefault fresh_event))
  ∧ timers (fst (click cfg (Some i) {| inside := true; anchor := Some a |} s))
    = timers s.
Proof.
  intros Hi _ Ha. by rewrite (click_self_anchor_inside cfg i a s Hi Ha).
Qed.

Lemma X9_close_anchor_skips_cleanup_witness :
  let s' := fst (click navPanelConfig (Some "navPanel"%string)
                   {| inside := true;
                      anchor := Some {| href := Some "#navPanel"%string;
                                        target := None |} |}
                   open_navPanel) in
  visible navPanelConfig s' = false ∧ timers s' = [].
Proof.
  assert ("navPanel"%string ≠ ""%string) as Hne by done.
  destruct (X9_close_anchor_skips_cleanup navPanelConfig "navPanel"
              {| href := Some "#navPanel"%string; target := None |}
              open_navPanel Hne eq_refl eq_refl) as [H Ht].
  intros s'. subst s'. split; [by rewrite H|exact Ht].
Defined.

(** X10: for a panel without id, or with an id that has no double quote,
    backslash or control character: a click outside the panel that is not
    on a toggle anchor hides an open panel, schedules one cleanup after [delay] ms and cancels the
    click itself (its default action and its propagation); on a closed panel
    it does nothing and the click keeps its default action. *)
Theorem X10_outside_click (cfg : PanelConfig) (id : option string)
    (a : option Anchor) (s : Panel) :
  plain_id id = true →
  match a with
  | Some x => isStringNotEmpty id && matches_self id x
  | None => false
  end = false →
  let '(s', ev) := click cfg id {| inside := false; anchor := a |} s in
  if visible cfg s then
    visible cfg s' = false
    ∧ ev = stopPropagation (preventDefault fresh_event)
    ∧ timers s' = insert_timer {| timer_due := clock s + Z.max 0 (delay cfg);
                                  timer_task := Cleanup |} (timers s)
  else s' = s ∧ ev = fresh_event.
Proof.
  intros _ H. unfold click, body_click. cbn [inside anchor].
  assert (onBodyClick cfg fresh_event s
          = (fst (_hide cfg (Some fresh_event) s),
             default fresh_event (snd (_hide cfg (Some fresh_event) s)))) as Hb.
  { unfold onBodyClick. by destruct (_hide cfg (Some fresh_event) s). }
  assert ((let '(s1, ev1) :=
             match a with
             | Some x => if isStringNotEmpty id && matches_self id x
                         then onToggleClick cfg fresh_event s else (s, fresh_event)
             | None => (s, fresh_event)
             end in
           if propagationStopped ev1 then (s1, ev1) else onBodyClick cfg ev1 s1)
          = onBodyClick cfg fresh_event s) as ->.
  { destruct a as [x|]; [by rewrite H|done]. }
  rewrite Hb. unfold visible, _hide.
  destruct (hasClass (visibleClass cfg) (target_classes s)) eqn:E; simpl.
  - split; [apply hasClass_removeClass|done].
  - done.
Qed.

Lemma X10_outside_click_witness :
  let '(s', ev) := click navPanelConfig (Some "navPanel"%string)
                     {| inside := false;
                        anchor := Some {| href := Some "/blog"%string;
                                          target := None |} |}
                     open_navPanel in
  visible navPanelConfig s' = false ∧ defaultPrevented ev = true.
Proof.
  pose proof (X10_outside_click navPanelConfig (Some "navPanel"%string)
                (Some {| href := Some "/blog"%string; target := None |})
                open_navPanel eq_refl eq_refl) as H.
  destruct (click navPanelConfig _ _ open_navPanel) as [s' ev].
  change (visible navPanelConfig open_navPanel) with true in H.
  destruct H as (Hv & -> & _). split; [exact Hv|reflexivity].
Defined.

(** X11: for a panel without id, or with an id that has no double quote,
    backslash or control character: the keyboard closes the panel only
    through Escape under hideOnEscape: then a keydown with code 27 leaves
    the panel hidden; a keydown with any other code, or any keydown without
    hideOnEscape, changes nothing. *)
Theorem X11_escape_only (cfg : PanelConfig) (id : option string) (s : Panel) :
  plain_id id = true →
  (hideOnEscape cfg = true →
   visible cfg (step cfg id (KeyDown 27) s) = false
   ∧ step cfg id (KeyDown 27) s = fst (_hide cfg (Some fresh_event) s))
  ∧ (∀ k, k ≠ 27 → step cfg id (KeyDown k) s = s)
  ∧ (hideOnEscape cfg = false → ∀ k, step cfg id (KeyDown k) s = s).
Proof.
  intros _. split; [|split].
  - intros H. simpl. rewrite H. unfold onKeyDown. simpl.
    pose proof (hide_not_visible cfg (Some fresh_event) s) as Hv.
    by destruct (_hide cfg (Some fresh_event) s).
  - intros k Hk. simpl. destruct (hideOnEscape cfg); [|done].
    unfold onKeyDown. by rewrite (proj2 (Z.eqb_neq k 27) Hk).
  - intros H k. simpl. by rewrite H.
Qed.

Lemma X11_escape_only_witness :
  let cfg := {| delay := 0; hideOnClick := false; hideOnEscape := true;
                hideOnSwipe := false; resetScroll := false; resetForms := false;
                side := None; visibleClass := "visible" |} in
  let s := new_panel {[ "visible"%string ]} [] in
  plain_id (Some "menu"%string) = true
  ∧ visible cfg (step cfg (Some "menu"%string) (KeyDown 27) s) = false
  ∧ step cfg (Some "menu"%string) (KeyDown 13) s = s.
Proof.
  intros cfg s. split; [reflexivity|].
  destruct (X11_escape_only cfg (Some "menu"%string) s eq_refl)
    as (Hesc & Hother & _).
  split; [exact (proj1 (Hesc eq_refl))|]. apply Hother. done.
Defined.

(** ** Further properties of the cleanup *)

Lemma scrollTop_cleanup (cfg : PanelConfig) (s : Panel) :
  scrollTop (cleanup cfg s) = if resetScroll cfg then 0 else scrollTop s.
Proof. unfold cleanup. by destruct (resetScroll cfg), (resetForms cfg). Qed.

Lemma foldl_run_task_scrollTop (cfg : PanelConfig) (l : list Timer) (s : Panel) :
  scrollTop (foldl (fun acc tm => run_task cfg (timer_task tm) acc) s l) =
    if resetScroll cfg && existsb (fun tm => is_cleanup (timer_task tm)) l
    then 0 else scrollTop s.
Proof.
  revert s. induction l as [|tm l IH]; intros s; simpl.
  - by rewrite andb_false_r.
  - rewrite IH. destruct (timer_task tm) as [|tv hv]; simpl.
    + rewrite scrollTop_cleanup. destruct (resetScroll cfg); simpl; [|done].
      by destruct (existsb _ l).
    + unfold navigate. by destruct (JS.str_eq tv "_blank").
Qed.

(** X12: with resetScroll, once [delay] ms have passed after an open panel
    was hidden, the panel is scrolled back to the top, whatever other
    timeouts were pending. *)
Theorem X12_scroll_reset_after_hide (cfg : PanelConfig) (event : option Event)
    (s : Panel) (t : Z) :
  resetScroll cfg = true →
  visible cfg s = true →
  clock s + Z.max 0 (delay cfg) ≤ t →
  scrollTop (advance_to cfg t (fst (_hide cfg event s))) = 0.
Proof.
  intros Hrs Hvis Hdue. unfold _hide. unfold visible in Hvis. rewrite Hvis.
  cbn [negb fst]. unfold advance_to. rewrite foldl_run_task_scrollTop, Hrs.
  assert (existsb (fun tm => is_cleanup (timer_task tm))
            (List.filter (due_by t)
               (timers (setTimeout Cleanup (delay cfg)
                  (set_classes
                     (removeClass (visibleClass cfg) (target_classes s)) s))))
          = true) as ->; [|done].
  apply existsb_exists.
  exists {| timer_due := clock s + Z.max 0 (delay cfg); timer_task := Cleanup |}.
  split; [|done]. apply filter_In. split.
  - apply list_elem_of_In. apply elem_of_insert_timer.
  - unfold due_by. apply Z.leb_le. exact Hdue.
Qed.

Lemma X12_scroll_reset_after_hide_witness :
  let s := set_scrollTop 250 open_navPanel in
  scrollTop s = 250
  ∧ scrollTop (advance_to navPanelConfig 500 (fst (_hide navPanelConfig None s))) = 0.
Proof.
  intros s. split; [reflexivity|].
  assert (clock s + Z.max 0 (delay navPanelConfig) ≤ 500) as Hdue
    by (by vm_compute).
  exact (X12_scroll_reset_after_hide navPanelConfig None s 500
           eq_refl eq_refl Hdue).
Defined.

Lemma foldl_run_task_forms_off (cfg : PanelConfig) (l : list Timer) (s : Panel) :
  resetForms cfg = false →
  forms (foldl (fun acc tm => run_task cfg (timer_task tm) acc) s l) = forms s.
Proof.
  intros Hoff. revert s. induction l as [|tm l IH]; intros s; simpl; [done|].
  rewrite IH. destruct (timer_task tm) as [|tv hv]; simpl.
  - unfold cleanup. rewrite Hoff. by destruct (resetScroll cfg).
  - unfold navigate. by destruct (JS.str_eq tv "_blank").
Qed.

Lemma step_scrollTop (cfg : PanelConfig) (id : option string) (e : DomEvent)
    (s : Panel) :
  resetScroll cfg = false → scrollTop (step cfg id e s) = scrollTop s.
Proof.
  intros Hoff. destruct e as [touch|touch| |tgt| |k|t]; simpl;
    try (by handler_cases).
  unfold advance_to. rewrite foldl_run_task_scrollTop, Hoff. done.
Qed.

Lemma step_forms (cfg : PanelConfig) (id : option string) (e : DomEvent)
    (s : Panel) :
  resetForms cfg = false → forms (step cfg id e s) = forms s.
Proof.
  intros Hoff. destruct e as [touch|touch| |tgt| |k|t]; simpl;
    try (by handler_cases).
  unfold advance_to. by rewrite foldl_run_task_forms_off.
Qed.

(** X13: the plugin writes the scroll position and the forms only through
    resetScroll and resetForms: without resetScroll no sequence of events
    changes the panel's scroll position, and without resetForms no sequence
    of events changes a form. *)
Theorem X13_no_reset_without_flag (cfg : PanelConfig) (id : option string)
    (es : list DomEvent) (s : Panel) :
  (resetScroll cfg = false → scrollTop (run cfg id es s) = scrollTop s)
  ∧ (resetForms cfg = false → forms (run cfg id es s) = forms s).
Proof.
  split; intros Hoff; revert s; induction es as [|e es IH]; intros s;
    try done; rewrite run_cons, IH.
  - by apply step_scrollTop.
  - by apply step_forms.
Qed.

(** ** Navigation happens only through the link-click handler *)

Lemma forallb_insert_timer (P : Timer → bool) (t : Timer) (l : list Timer) :
  forallb P (insert_timer t l) = P t && forallb P l.
Proof.
  induction l as [|u r IH]; simpl; [done|].
  destruct (timer_due u <=? timer_due t); simpl; [|done].
  rewrite IH. by destruct (P t), (P u).
Qed.

Lemma forallb_filter (P Q : Timer → bool) (l : list Timer) :
  forallb P l = true → forallb P (List.filter Q l) = true.
Proof.
  induction l as [|u r IH]; simpl; [done|].
  intros [Hu Hr]%andb_true_iff. destruct (Q u); simpl; [|by apply IH].
  rewrite Hu. by apply IH.
Qed.

Lemma flat_map_cleanup_only (l : list Timer) :
  forallb (fun tm => is_cleanup (timer_task tm)) l = true →
  flat_map (fun tm => task_effects (timer_task tm)) l = [].
Proof.
  induction l as [|u r IH]; simpl; [done|].
  intros [Hu Hr]%andb_true_iff. rewrite IH by done.
  by destruct (timer_task u).
Qed.

Lemma foldl_run_task_timers (cfg : PanelConfig) (l : list Timer) (s : Panel) :
  timers (foldl (fun acc tm => run_task cfg (timer_task tm) acc) s l) = timers s.
Proof.
  revert s. induction l as [|tm l IH]; intros s; simpl; [done|].
  rewrite IH. destruct (timer_task tm) as [|tv hv]; simpl.
  - unfold cleanup. by destruct (resetScroll cfg), (resetForms cfg).
  - unfold navigate. by destruct (JS.str_eq tv "_blank").
Qed.

(** Without hideOnClick an event schedules cleanups only and performs no
    navigation. *)
Lemma step_cleanup_only (cfg : PanelConfig) (id : option string) (e : DomEvent)
    (s : Panel) :
  hideOnClick cfg = false →
  forallb (fun tm => is_cleanup (timer_task tm)) (timers s) = true →
  forallb (fun tm => is_cleanup (timer_task tm)) (timers (step cfg id e s)) = true
  ∧ effects (step cfg id e s) = effects s.
Proof.
  intros Hoff Hinv. destruct e as [touch|touch| |tgt| |k|t]; simpl;
    try (by handler_cases; rewrite ?forallb_insert_timer, ?Hinv).
  unfold advance_to. rewrite foldl_run_task_timers, effects_foldl_run_task.
  cbn [timers effects set_clock set_timers]. split.
  - by apply forallb_filter.
  - rewrite flat_map_cleanup_only; [by rewrite app_nil_r|].
    by apply forallb_filter.
Qed.

(** X14: without hideOnClick the plugin never navigates: if no navigation
    is pending, then after any sequence of events, however much time
    passes, the window has been sent nowhere. *)
Theorem X14_no_navigation_without_hideOnClick (cfg : PanelConfig)
    (id : option string) (es : list DomEvent) (s : Panel) :
  hideOnClick cfg = false →
  forallb (fun tm => is_cleanup (timer_task tm)) (timers s) = true →
  effects (run cfg id es s) = effects s.
Proof.
  intros Hoff. revert s. induction es as [|e es IH]; intros s Hinv; [done|].
  destruct (step_cleanup_only cfg id e s Hoff Hinv) as [Hinv' Heff].
  rewrite run_cons, IH; done.
Qed.

Lemma X14_no_navigation_without_hideOnClick_witness :
  let s := new_panel {[ visibleClass defaults ]} [] in
  let es := [ Click {| inside := true;
                       anchor := Some {| href := Some "/about"%string;
                                         target := None |} |};
              Click {| inside := false; anchor := None |};
              Elapse 1000 ] in
  hideOnClick defaults = false
  ∧ effects (run defaults (Some "panel"%string) es s) = [].
Proof.
  intros s es. split; [reflexivity|].
  exact (X14_no_navigation_without_hideOnClick defaults (Some "panel"%string)
           es s eq_refl eq_refl).
Defined.

(** ** normalizeConfig *)

(** Copying adds every own property but '__proto__'. *)
Lemma copy_own_delete {V : Type} (src cfg : gmap string V) :
  copy_own src cfg = delete "__proto__"%string src ∪ cfg.
Proof.
  unfold copy_own.
  apply (map_fold_weak_ind
           (fun r m => r = delete "__proto__"%string m ∪ cfg)).
  - by rewrite delete_empty, (left_id_L ∅ (∪)).
  - intros k v m r Hk ->. case_bool_decide as Hp.
    + subst k. by rewrite delete_insert_eq.
    + rewrite delete_insert_ne by done. by rewrite insert_union_l.
Qed.

Lemma copy_own_union {V : Type} (src cfg : gmap string V) :
  no_proto src → copy_own src cfg = src ∪ cfg.
Proof. intros H. rewrite copy_own_delete. by rewrite delete_id. Qed.

(** X15: for objects without an own '__proto__' property: in the object
    [normalizeConfig] returns, a key the caller's object has carries the
    caller's value, any other key carries the default (or is absent when
    there is none); when the caller passes no object the result is a copy
    of the defaults. *)
Theorem X15_normalizeConfig_lookup {V : Type} (defaults u : gmap string V)
    (key : string) :
  no_proto defaults → no_proto u →
  normalizeConfig defaults (Some u) !! key
  = match u !! key with
    | Some v => Some v
    | None => defaults !! key
    end
  ∧ normalizeConfig defaults None = defaults.
Proof.
  intros Hd Hu. unfold normalizeConfig.
  rewrite !copy_own_union, (right_id_L ∅ (∪)) by done.
  split; [|done]. rewrite lookup_union. by destruct (u !! key), (defaults !! key).
Qed.

Lemma X15_normalizeConfig_lookup_witness :
  let d : gmap string Z := {[ "delay"%string := 0; "depth"%string := 3 ]} in
  let u : gmap string Z := {[ "delay"%string := 500 ]} in
  (no_proto d ∧ no_proto u)
  ∧ normalizeConfig d (Some u) !! "delay"%string = Some 500
  ∧ normalizeConfig d (Some u) !! "depth"%string = Some 3.
Proof.
  intros d u.
  assert (no_proto d) as Hd by reflexivity.
  assert (no_proto u) as Hu by reflexivity.
  split; [done|]. split.
  - exact (proj1 (X15_normalizeConfig_lookup d u "delay" Hd Hu)).
  - exact (proj1 (X15_normalizeConfig_lookup d u "depth" Hd Hu)).
Defined.

(** X16: for objects without an own '__proto__' property, normalizing is
    idempotent and the defaults are neutral: feeding the result back in as
    the caller's object, or passing the defaults themselves or an empty
    object, gives the same configuration again. *)
Theorem X16_normalizeConfig_idempotent {V : Type}
    (defaults : gmap string V) (userConfig : option (gmap string V)) :
  no_proto defaults →
  match userConfig with Some u => no_proto u | None => True end →
  normalizeConfig defaults (Some (normalizeConfig defaults userConfig))
  = normalizeConfig defaults userConfig
  ∧ normalizeConfig defaults (Some defaults) = defaults
  ∧ normalizeConfig defaults (Some ∅) = defaults.
Proof.
  intros Hd Hu.
  assert (normalizeConfig defaults userConfig
          = match userConfig with Some u => u ∪ defaults | None => defaults end)
    as Hn.
  { unfold normalizeConfig. rewrite (copy_own_union defaults), (right_id_L ∅ (∪))
      by done.
    destruct userConfig as [u|]; [|done]. by rewrite copy_own_union. }
  assert (no_proto (normalizeConfig defaults userConfig)) as Hr.
  { rewrite Hn. unfold no_proto in *. destruct userConfig as [u|]; [|done].
    rewrite lookup_union, Hu, Hd. done. }
  assert (∀ u, no_proto u → normalizeConfig defaults (Some u) = u ∪ defaults)
    as Hs.
  { intros u H. unfold normalizeConfig.
    by rewrite !copy_own_union, (right_id_L ∅ (∪)). }
  split; [|split].
  - rewrite (Hs _ Hr), Hn. apply map_eq. intros k.
    destruct userConfig as [u|]; rewrite !lookup_union;
      [by destruct (u !! k), (defaults !! k)|by destruct (defaults !! k)].
  - rewrite (Hs _ Hd). apply map_eq. intros k. rewrite lookup_union.
    by destruct (defaults !! k).
  - rewrite Hs by apply lookup_empty. by rewrite (left_id_L ∅ (∪)).
Qed.

Lemma X16_normalizeConfig_idempotent_witness :
  let d : gmap string Z := {[ "delay"%string := 0; "depth"%string := 3 ]} in
  let u : gmap string Z := {[ "delay"%string := 500 ]} in
  (no_proto d ∧ no_proto u)
  ∧ normalizeConfig d (Some (normalizeConfig d (Some u)))
    = normalizeConfig d (Some u).
Proof.
  intros d u.
  assert (no_proto d) as Hd by reflexivity.
  assert (no_proto u) as Hu by reflexivity.
  split; [done|].
  exact (proj1 (X16_normalizeConfig_idempotent d (Some u) Hd Hu)).
Defined.

(** ** $.prioritize *)

Lemma elem_of_detach (e x : nat) (l : list nat) :
  x ∈ detach e l ↔ x ∈ l ∧ x ≠ e.
Proof.
  unfold detach. rewrite !list_elem_of_In, filter_In, negb_true_iff.
  by rewrite bool_decide_eq_false.
Qed.

Lemma detach_notin (e : nat) (l : list nat) : e ∉ l → detach e l = l.
Proof.
  induction l as [|x r IH]; [done|]. intros Hn.
  apply not_elem_of_cons in Hn as [Hne Hr]. unfold detach in *. simpl.
  rewrite bool_decide_false by done. simpl. by rewrite IH.
Qed.

Lemma detach_app (e : nat) (l k : list nat) :
  detach e (l ++ k) = detach e l ++ detach e k.
Proof. unfold detach. apply List.filter_app. Qed.

Lemma detach_cons_eq (e : nat) (l : list nat) : detach e (e :: l) = detach e l.
Proof. unfold detach. simpl. by rewrite bool_decide_true. Qed.

Lemma detach_cons_ne (e x : nat) (l : list nat) :
  x ≠ e → detach e (x :: l) = x :: detach e l.
Proof. intros H. unfold detach. simpl. by rewrite bool_decide_false. Qed.

Lemma NoDup_detach (e : nat) (l : list nat) : NoDup l → NoDup (detach e l).
Proof.
  induction 1 as [|x r Hx Hr IH]; [constructor|].
  destruct (decide (x = e)) as [->|Hne].
  - by rewrite detach_cons_eq.
  - rewrite detach_cons_ne by done. constructor; [|done].
    rewrite elem_of_detach. tauto.
Qed.

Lemma detach_Permutation (e : nat) (l : list nat) :
  NoDup l → e ∈ l → e :: detach e l ≡ₚ l.
Proof.
  induction 1 as [|x r Hx Hr IH]; intros He; [by apply elem_of_nil in He|].
  destruct (decide (x = e)) as [->|Hne].
  - by rewrite detach_cons_eq, detach_notin.
  - rewrite detach_cons_ne by done. apply elem_of_cons in He as [->|He]; [done|].
    rewrite Permutation_swap. by rewrite IH.
Qed.

Lemma insert_after_Permutation (p e : nat) (l : list nat) :
  p ∈ l → insert_after p e l ≡ₚ e :: l.
Proof.
  induction l as [|x r IH]; intros Hp; [by apply elem_of_nil in Hp|]. simpl.
  destruct (decide (x = p)) as [->|Hne]; [apply Permutation_swap|].
  apply elem_of_cons in Hp as [->|Hp]; [done|].
  rewrite IH by done. apply Permutation_swap.
Qed.

Lemma insert_after_middle (p e : nat) (l1 l2 : list nat) :
  p ∉ l1 → insert_after p e (l1 ++ p :: l2) = l1 ++ p :: e :: l2.
Proof.
  induction l1 as [|x r IH]; intros Hn; simpl.
  - by rewrite decide_True.
  - apply not_elem_of_cons in Hn as [Hne Hr].
    rewrite decide_False by done. by rewrite IH.
Qed.

Lemma detach_insert_after (p e : nat) (l : list nat) :
  e ∉ l → p ≠ e → detach e (insert_after p e l) = l.
Proof.
  induction l as [|x r IH]; intros Hn Hpe; [done|]. simpl.
  apply not_elem_of_cons in Hn as [Hne Hr].
  destruct (decide (x = p)) as [->|Hxp].
  - rewrite detach_cons_ne, detach_cons_eq, detach_notin; done.
  - rewrite detach_cons_ne by done. by rewrite IH.
Qed.

Lemma insert_after_notin (p e : nat) (l : list nat) :
  p ∉ l → insert_after p e l = l.
Proof.
  induction l as [|x r IH]; intros Hn; [done|]. simpl.
  apply not_elem_of_cons in Hn as [Hne Hr].
  rewrite decide_False by done. by rewrite IH.
Qed.

(** The previous sibling sits right before the element. *)
Lemma prev_sibling_Some (e p : nat) (l : list nat) :
  prev_sibling e l = Some p →
  ∃ l1 l2, l = l1 ++ p :: e :: l2 ∧ (e ∉ l1) ∧ p ≠ e.
Proof.
  induction l as [|x r IH]; [done|]. simpl.
  destruct (decide (x = e)) as [->|Hne]; [done|].
  destruct r as [|y r']; [done|].
  destruct (decide (y = e)) as [->|Hye].
  - intros [= <-]. exists (@nil nat), r'.
    split; [done|]. split; [apply not_elem_of_nil|done].
  - intros H. destruct (IH H) as (l1 & l2 & Hl & Hn & Hpe).
    exists (x :: l1), l2. rewrite Hl. split; [done|]. split; [|done].
    apply not_elem_of_cons. split; [congruence|done].
Qed.

(** An element without a previous sibling is the first child. *)
Lemma prev_sibling_None (e : nat) (l : list nat) :
  e ∈ l → prev_sibling e l = None → head l = Some e.
Proof.
  induction l as [|x r IH]; intros He; [by apply elem_of_nil in He|]. simpl.
  destruct (decide (x = e)) as [->|Hne]; [done|].
  apply elem_of_cons in He as [->|He]; [done|].
  destruct r as [|y r']; [by apply elem_of_nil in He|].
  destruct (decide (y = e)) as [->|Hye]; [done|].
  intros H. specialize (IH He H). simpl in IH. congruence.
Qed.

(** The two moves of [$.prioritize]. *)
Lemma prioritize_one_to_top (e p : nat) (s : Siblings) :
  e ∈ children s → moved s !! e = None →
  prev_sibling e (children s) = Some p →
  prioritize_one true e s
  = {| children := e :: detach e (children s); moved := <[e:=p]> (moved s) |}.
Proof.
  intros He Hm Hp. unfold prioritize_one.
  rewrite decide_True by done. by rewrite Hm, Hp.
Qed.

Lemma prioritize_one_back (e p : nat) (s : Siblings) :
  e ∈ children s → moved s !! e = Some p →
  prioritize_one false e s
  = {| children := insert_after p e (detach e (children s));
       moved := delete e (moved s) |}.
Proof.
  intros He Hm. unfold prioritize_one.
  rewrite decide_True by done. by rewrite Hm.
Qed.

Lemma prioritize_one_first (c : bool) (e : nat) (s : Siblings) :
  moved s !! e = None → prev_sibling e (children s) = None →
  prioritize_one c e s = s.
Proof.
  intros Hm Hp. unfold prioritize_one. rewrite Hm, Hp.
  by destruct (decide _), c.
Qed.

Lemma prioritize_one_detached (c : bool) (e : nat) (s : Siblings) :
  e ∉ children s → prioritize_one c e s = s.
Proof. intros He. unfold prioritize_one. by rewrite decide_False. Qed.

(** X17: moving an element to the top and moving it back is a round trip:
    for distinct children and an element not marked as moved,
    prioritize(true) followed by prioritize(false) restores the order of
    the children and leaves no mark behind. *)
Theorem X17_prioritize_round_trip (e : nat) (s : Siblings) :
  NoDup (children s) →
  moved s !! e = None →
  prioritize [e] false (prioritize [e] true s) = s.
Proof.
  intros Hnd Hm. unfold prioritize. cbn [foldl].
  destruct (decide (e ∈ children s)) as [He|He];
    [|by rewrite (prioritize_one_detached true e s He),
                 (prioritize_one_detached false e s He)].
  destruct (prev_sibling e (children s)) as [p|] eqn:Hp;
    [|by rewrite (prioritize_one_first true e s Hm Hp),
                 (prioritize_one_first false e s Hm Hp)].
  rewrite (prioritize_one_to_top e p s He Hm Hp).
  rewrite (prioritize_one_back e p);
    [|apply list_elem_of_here|apply lookup_insert_eq].
  cbn [children moved]. rewrite delete_insert_id by done.
  destruct (prev_sibling_Some e p _ Hp) as (l1 & l2 & Hl & Hn & Hpe).
  destruct s as [ch mv]. cbn [children moved] in *. subst ch. f_equal.
  apply NoDup_app in Hnd as (Hnd1 & Hdisj & Hnd2).
  apply NoDup_cons in Hnd2 as [Hp2 Hnd2].
  apply NoDup_cons in Hnd2 as [He2 Hnd2].
  assert (detach e (l1 ++ p :: e :: l2) = l1 ++ p :: l2) as Hd.
  { rewrite detach_app, detach_notin by done.
    by rewrite detach_cons_ne, detach_cons_eq, detach_notin. }
  rewrite detach_cons_eq, Hd.
  rewrite (detach_notin e (l1 ++ p :: l2))
    by (rewrite <- Hd, elem_of_detach; tauto).
  apply insert_after_middle.
  intros Hin. apply (Hdisj p Hin). apply list_elem_of_here.
Qed.

Lemma X17_prioritize_round_trip_witness :
  let s := {| children := [1; 2; 3; 4]%nat; moved := ∅ |} in
  children (prioritize [3%nat] true s) = [3; 1; 2; 4]%nat
  ∧ prioritize [3%nat] false (prioritize [3%nat] true s) = s.
Proof.
  intros s. split; [reflexivity|].
  assert (NoDup (children s)) as Hnd.
  { apply (bool_decide_unpack (NoDup [1; 2; 3; 4]%nat)). exact I. }
  exact (X17_prioritize_round_trip 3%nat s Hnd eq_refl).
Defined.

(** Nothing moves when the mark already agrees with the condition. *)
Lemma prioritize_one_keep (c : bool) (e : nat) (s : Siblings) :
  bool_decide (is_Some (moved s !! e)) = c → prioritize_one c e s = s.
Proof.
  intros <-. unfold prioritize_one.
  destruct (decide _); [|done]. by destruct (moved s !! e).
Qed.

Lemma prioritize_one_well_placed (c : bool) (e : nat) (s : Siblings) :
  well_placed s →
  well_placed (prioritize_one c e s)
  ∧ children (prioritize_one c e s) ≡ₚ children s.
Proof.
  intros [Hnd Hmv].
  destruct (decide (e ∈ children s)) as [He|He];
    [|by rewrite prioritize_one_detached].
  destruct (moved s !! e) as [p|] eqn:Hm.
  - destruct c.
    { rewrite prioritize_one_keep; [done|by rewrite Hm]. }
    rewrite (prioritize_one_back e p s He Hm).
    destruct (Hmv e p Hm) as [Hp Hpe].
    assert (insert_after p e (detach e (children s)) ≡ₚ children s) as Hperm.
    { rewrite insert_after_Permutation by (rewrite elem_of_detach; tauto).
      by apply detach_Permutation. }
    split; [|done]. split; cbn [children moved].
    + by rewrite Hperm.
    + intros e' p' [Hne H]%lookup_delete_Some. rewrite Hperm. by apply Hmv.
  - destruct c; [|rewrite prioritize_one_keep; [done|by rewrite Hm]].
    destruct (prev_sibling e (children s)) as [p|] eqn:Hp;
      [|by rewrite prioritize_one_first].
    rewrite (prioritize_one_to_top e p s He Hm Hp).
    assert (e :: detach e (children s) ≡ₚ children s) as Hperm
      by (by apply detach_Permutation).
    destruct (prev_sibling_Some e p _ Hp) as (l1 & l2 & Hl & _ & Hpe).
    split; [|done]. split; cbn [children moved].
    + by rewrite Hperm.
    + intros e' p'. rewrite Hperm. destruct (decide (e = e')) as [<-|Hne].
      * rewrite lookup_insert_eq. intros [= <-]. split; [|done].
        rewrite Hl. apply elem_of_app. right. apply list_elem_of_here.
      * rewrite lookup_insert_ne by done. apply Hmv.
Qed.

(** X18: [$.prioritize] only reorders: starting from distinct children
    whose saved placeholders are all still there, any collection and either
    condition give back the same children, each exactly once, with every
    saved placeholder still among them. *)
Theorem X18_prioritize_permutes (elements : list nat) (condition : bool)
    (s : Siblings) :
  well_placed s →
  well_placed (prioritize elements condition s)
  ∧ children (prioritize elements condition s) ≡ₚ children s.
Proof.
  unfold prioritize. revert s.
  induction elements as [|e els IH]; intros s Hwp; [done|]. cbn [foldl].
  destruct (prioritize_one_well_placed condition e s Hwp) as [Hwp' Hperm].
  destruct (IH _ Hwp') as [Hwp'' Hperm'].
  split; [done|]. by rewrite Hperm'.
Qed.

Lemma X18_prioritize_permutes_witness :
  let s := {| children := [1; 2; 3; 4]%nat; moved := ∅ |} in
  well_placed s
  ∧ children (prioritize [2; 3]%nat true s) = [3; 2; 1; 4]%nat
  ∧ children (prioritize [2; 3]%nat true s) ≡ₚ children s.
Proof.
  intros s.
  assert (well_placed s) as Hwp.
  { split; [|done]. apply (bool_decide_unpack (NoDup [1; 2; 3; 4]%nat)). exact I. }
  split; [exact Hwp|]. split; [reflexivity|].
  exact (proj2 (X18_prioritize_permutes [2; 3]%nat true s Hwp)).
Defined.

(** X19: prioritize(true) on an unmarked child makes it the first child,
    and a second prioritize(true) changes nothing more. *)
Theorem X19_prioritize_to_top (e : nat) (s : Siblings) :
  e ∈ children s →
  moved s !! e = None →
  head (children (prioritize [e] true s)) = Some e
  ∧ prioritize [e] true (prioritize [e] true s) = prioritize [e] true s.
Proof.
  intros He Hm. unfold prioritize. cbn [foldl].
  destruct (prev_sibling e (children s)) as [p|] eqn:Hp.
  - rewrite (prioritize_one_to_top e p s He Hm Hp). split; [done|].
    unfold prioritize_one. cbn [children moved].
    rewrite decide_True by apply list_elem_of_here.
    by rewrite lookup_insert_eq.
  - rewrite !(prioritize_one_first true e s Hm Hp).
    split; [by apply prev_sibling_None|done].
Qed.

Lemma X19_prioritize_to_top_witness :
  let s := {| children := [1; 2; 3; 4]%nat; moved := ∅ |} in
  head (children (prioritize [3%nat] true s)) = Some 3%nat.
Proof.
  intros s.
  assert (3%nat ∈ children s) as He.
  { apply (bool_decide_unpack (3%nat ∈ [1; 2; 3; 4]%nat)). exact I. }
  exact (proj1 (X19_prioritize_to_top 3%nat s He eq_refl)).
Defined.

Lemma others_detach (elements : list nat) (e : nat) (l : list nat) :
  e ∈ elements → others elements (detach e l) = others elements l.
Proof.
  intros He. unfold others, detach. induction l as [|x r IH]; [done|]. simpl.
  destruct (decide (x = e)) as [->|Hne].
  - rewrite (bool_decide_true (e = e)) by done.
    rewrite (bool_decide_true (e ∈ elements)) by done. simpl. exact IH.
  - rewrite (bool_decide_false (x = e)) by done. simpl. by rewrite IH.
Qed.

Lemma prioritize_one_detach (c : bool) (e : nat) (s : Siblings) :
  detach e (children (prioritize_one c e s)) = detach e (children s).
Proof.
  assert (e ∉ detach e (children s)) as Hn by (rewrite elem_of_detach; tauto).
  unfold prioritize_one. repeat case_match; try done; cbn [children].
  - destruct (decide (n ∈ detach e (children s))) as [Hin|Hin].
    + apply detach_insert_after; [done|]. apply elem_of_detach in Hin. tauto.
    + rewrite insert_after_notin by done. by apply detach_notin.
  - rewrite detach_cons_eq. by apply detach_notin.
Qed.

(** X20: [$.prioritize] never reorders the other children: the children
    that are not in the collection keep their relative order, whatever the
    collection, the condition and the marks are. *)
Theorem X20_prioritize_keeps_others (elements : list nat) (condition : bool)
    (s : Siblings) :
  others elements (children (prioritize elements condition s))
  = others elements (children s).
Proof.
  unfold prioritize.
  assert (∀ l, l ⊆ elements → ∀ s0,
            others elements
              (children (foldl (fun acc e => prioritize_one condition e acc) s0 l))
            = others elements (children s0)) as H.
  { induction l as [|e l IH]; intros Hsub s0; [done|]. cbn [foldl].
    rewrite IH by (intros x Hx; apply Hsub; by apply list_elem_of_further).
    assert (e ∈ elements) as He by (apply Hsub, list_elem_of_here).
    rewrite <- (others_detach elements e _ He), prioritize_one_detach.
    by apply others_detach. }
  by apply H.
Qed.

(** ** The placeholder polyfill on text inputs *)

Lemma read_back_empty (k : InputKind) : read_back k "" = ""%string.
Proof. by destruct k. Qed.




(** X22: text the user typed that is neither empty nor equal to the
    field's placeholder is never touched: the first pass, blur and focus
    leave the field as it is, and submit keeps its value and classes. *)
Theorem X22_typed_text_survives (i : Input) :
  input_value i ≠ ""%string →
  input_placeholder i ≠ Some (input_value i) →
  placeholder_init i = i
  ∧ onBlur_text i = i
  ∧ onFocus_text i = i
  ∧ input_value (onSubmit_field i) = input_value i
  ∧ input_classes (onSubmit_field i) = input_classes i.
Proof.
  intros Hv Hp.
  assert (JS.str_eq (input_placeholder i) (input_value i) = false) as Hne.
  { rewrite str_eq_decide. by apply bool_decide_eq_false. }
  repeat split.
  - unfold placeholder_init. rewrite (bool_decide_false _ Hv). simpl.
    destruct (input_placeholder i) as [p|] eqn:E; simpl.
    + destruct (bool_decide (p = ""%string)); simpl.
      * by rewrite bool_decide_false.
      * rewrite bool_decide_false; [done|]. intros H. apply Hp. by rewrite H.
    + by rewrite bool_decide_false.
  - unfold onBlur_text. rewrite (bool_decide_false _ Hv).
    by destruct (is_polyfill_field _).
  - unfold onFocus_text. rewrite Hne. by destruct (is_polyfill_field _).
  - unfold onSubmit_field. destruct (is_polyfill_field _); simpl; by rewrite Hne.
  - unfold onSubmit_field. destruct (is_polyfill_field _); simpl; by rewrite Hne.
Qed.

Lemma X22_typed_text_survives_witness :
  let i := {| input_kind := TextInput; input_name := Some "email"%string;
              input_value := "a@b.c"; input_placeholder := Some "Email"%string;
              input_classes := ∅ |} in
  onBlur_text i = i ∧ onFocus_text i = i.
Proof.
  intros i.
  assert (input_value i ≠ ""%string) as Hv by done.
  assert (input_placeholder i ≠ Some (input_value i)) as Hp by done.
  destruct (X22_typed_text_survives i Hv Hp) as (_ & Hb & Hf & _).
  split; [exact Hb|exact Hf].
Defined.

(** X23: the submit handler never lets placeholder text or a polyfill
    field through: after it, no field of the form has a non-empty
    placeholder as its value, and no field has a name ending in
    "-polyfill-field". *)
Theorem X23_submit_strips_placeholders (form : list Input) (i : Input) :
  i ∈ onSubmit form →
  (∀ p, input_placeholder i = Some p → p ≠ ""%string → input_value i ≠ p)
  ∧ is_polyfill_field (input_name i) = false.
Proof.
  unfold onSubmit. intros (i0 & -> & _)%list_elem_of_fmap.
  unfold onSubmit_field.
  set (i1 := if is_polyfill_field (input_name i0)
             then set_input_name (Some ""%string) i0 else i0).
  assert (is_polyfill_field (input_name i1) = false) as Hname.
  { subst i1. destruct (is_polyfill_field (input_name i0)) eqn:E; [done|exact E]. }
  destruct (JS.str_eq (input_placeholder i1) (input_value i1)) eqn:E; cbn.
  - rewrite read_back_empty.
    split; [|exact Hname]. intros p _ Hp Heq. by apply Hp.
  - split; [|exact Hname]. intros p Hp _ Heq.
    rewrite str_eq_decide in E. apply bool_decide_eq_false in E.
    apply E. by rewrite Hp, Heq.
Qed.

Lemma X23_submit_strips_placeholders_witness :
  let shown := {| input_kind := TextInput; input_name := Some "email"%string;
                  input_value := "Email";
                  input_placeholder := Some "Email"%string;
                  input_classes := {[ "polyfill-placeholder"%string ]} |} in
  onSubmit_field shown ∈ onSubmit [shown]
  ∧ input_value (onSubmit_field shown) ≠ "Email"%string.
Proof.
  intros shown.
  assert (onSubmit_field shown ∈ onSubmit [shown]) as Hi
    by apply list_elem_of_here.
  split; [exact Hi|].
  destruct (X23_submit_strips_placeholders [shown] _ Hi) as [H _].
  apply (H "Email"%string); [reflexivity|done].
Defined.

(** X24: the first pass is idempotent: running it again on a field it has
    already treated changes nothing. *)
Theorem X24_placeholder_init_idempotent (i : Input) :
  placeholder_init (placeholder_init i) = placeholder_init i.
Proof.
  unfold placeholder_init at 2.
  set (pt := if JS.truthy (input_placeholder i)
             then default ""%string (input_placeholder i) else ""%string).
  destruct (bool_decide (input_value i = ""%string)
            || bool_decide (input_value i = pt)) eqn:E.
  - set (i' := set_val (Some pt)
                 (set_input_classes
                    (addClass "polyfill-placeholder" (input_classes i)) i)).
    unfold placeholder_init.
    change (input_placeholder i') with (input_placeholder i). fold pt.
    rewrite E. fold i'.
    destruct (bool_decide (input_value i' = ""%string)
              || bool_decide (input_value i' = pt)); [|done].
    subst i'. unfold set_val, set_input_classes; cbn. f_equal.
    unfold addClass. apply set_eq. intros x. rewrite !elem_of_union. tauto.
  - unfold placeholder_init. fold pt. by rewrite E.
Qed.

(** ** Swipes, for every side *)

(** X25: with hideOnSwipe, a touchstart followed by a touchmove that
    [evaluateSwipe] accepts for the configured side leaves the panel hidden
    and the recorded coordinates null, cancels the touchmove (its default
    action and its propagation), and a further touchmove of the same
    gesture does nothing. *)
Theorem X25_swipe_hides (cfg : PanelConfig) (s : Panel) (t p : Touch)
    (q : option Touch) :
  hideOnSwipe cfg = true →
  evaluateSwipe (side cfg) (JS.Fin (pageX t - pageX p))
                (JS.Fin (pageY t - pageY p)) = true →
  let '(s', ev) := touchmove cfg (Some p) (onTouchStart (Some t) s) in
  visible cfg s' = false
  ∧ touchPosX s' = JS.Null ∧ touchPosY s' = JS.Null
  ∧ defaultPrevented ev = true ∧ propagationStopped ev = true
  ∧ onTouchMove cfg q fresh_event s' = (s', fresh_event, RetUndefined).
Proof.
  intros Hs Hsw. unfold touchmove.
  rewrite (onTouchMove_tracking cfg p fresh_event _ (pageX t) (pageY t))
    by reflexivity.
  rewrite Hs, Hsw. cbn [andb after_return onInsideEvent].
  set (s1 := set_touchPos JS.Null JS.Null (onTouchStart (Some t) s)).
  destruct (hide_touchPos cfg None s1) as [HX HY].
  split; [apply hide_not_visible|].
  split; [by rewrite HX|]. split; [by rewrite HY|].
  split; [done|]. split; [done|].
  apply onTouchMove_null. left. by rewrite HX.
Qed.

Lemma X25_swipe_hides_witness :
  let cfg := {| delay := 0; hideOnClick := false; hideOnEscape := false;
                hideOnSwipe := true; resetScroll := false; resetForms := false;
                side := Some "top"%string; visibleClass := "visible" |} in
  let s := new_panel {[ "visible"%string ]} [] in
  let '(s', ev) := touchmove cfg (Some {| pageX := 100; pageY := 120 |})
                     (onTouchStart (Some {| pageX := 100; pageY := 200 |}) s) in
  visible cfg s' = false ∧ defaultPrevented ev = true.
Proof.
  intros cfg s.
  pose proof (X25_swipe_hides cfg s {| pageX := 100; pageY := 200 |}
                {| pageX := 100; pageY := 120 |} None eq_refl eq_refl) as H.
  destruct (touchmove cfg _ _) as [s' ev].
  destruct H as (Hv & _ & _ & Hd & _). split; [exact Hv|exact Hd].
Defined.
